(** * Walkie-Server: presence bookkeeping and signalling relay

    A shallow embedding of the two iterations of [server.js]:

    - the channel-scoped iteration (version 1.0.0, audio relay plus
      channel-scoped WebRTC signalling), module [ChannelScoped];
    - the globally addressed iteration (version 2.0.0 "WebRTC"), module
      [GlobalAddr].

    Both iterations share, character for character, the handlers for
    [connection], [join-channel], [leave-channel], [get-channel-users],
    [ping] and [disconnect]; these are embedded once.

    Conventions of the embedding.

    - The two module-level [Map]s ([channels], [users]) and the room table
      of the Socket.IO adapter form the explicit state that every handler
      threads.  A JavaScript [Map] keeps insertion order and [Array.from]
      enumerates in that order, so maps are association lists ([JsMap]).
    - A handler returns the new state and the list of emissions it
      performed, in program order.  [console.log] is not modelled.
    - [Date.now()] / [new Date()] are read from an argument [now].
    - Socket ids, channel ids and room names are strings; user identities
      are JavaScript values that may be [undefined] (field absent), [null]
      (the registry's initial value) or a string; negotiation payloads are
      opaque strings. *)

From Stdlib Require Import String List ZArith Bool Lia.
Import ListNotations.
Local Open Scope string_scope.
Local Open Scope Z_scope.

(** ** JavaScript values used as identities *)

Inductive value : Type :=
| VUndefined
| VNull
| VStr (s : string).

(** Strict equality [===] on these values. *)
Definition value_eqb (a b : value) : bool :=
  match a, b with
  | VUndefined, VUndefined => true
  | VNull, VNull => true
  | VStr s, VStr t => String.eqb s t
  | _, _ => false
  end.

(** Truthiness: [undefined], [null] and the empty string are falsy. *)
Definition truthy_str (s : string) : bool := negb (String.eqb s "").

Definition truthy (v : value) : bool :=
  match v with
  | VStr s => truthy_str s
  | _ => false
  end.

(** [a || b] on values. *)
Definition js_or (a b : value) : value := if truthy a then a else b.

(** ** JavaScript [Map] with string keys, in insertion order *)

Module JsMap.
Section Ops.
Context {V : Type}.

Definition t : Type := list (string * V).

(** [m.get(k)]; [None] stands for [undefined]. *)
Fixpoint get (m : t) (k : string) : option V :=
  match m with
  | [] => None
  | (k', v) :: r => if String.eqb k' k then Some v else get r k
  end.

(** [m.has(k)] *)
Definition has (m : t) (k : string) : bool :=
  match get m k with Some _ => true | None => false end.

(** [m.set(k, v)]: an existing key keeps its position, a new key is
    appended. *)
Fixpoint set (m : t) (k : string) (v : V) : t :=
  match m with
  | [] => [(k, v)]
  | (k', v') :: r =>
      if String.eqb k' k then (k, v) :: r else (k', v') :: set r k v
  end.

(** [m.delete(k)].  The keys of a [Map] are unique; on a list with
    unique keys this drops the one entry of [k]. *)
Fixpoint delete (m : t) (k : string) : t :=
  match m with
  | [] => []
  | (k', v') :: r =>
      if String.eqb k' k then delete r k else (k', v') :: delete r k
  end.

(** [m.size] *)
Definition size (m : t) : Z := Z.of_nat (length m).

(** [Array.from(m.values())] *)
Definition values (m : t) : list V := map snd m.

(** [Array.from(m.keys())] *)
Definition keys (m : t) : list string := map fst m.

(** [Array.prototype.find] *)
Fixpoint find (p : V -> bool) (l : list V) : option V :=
  match l with
  | [] => None
  | x :: r => if p x then Some x else find p r
  end.
End Ops.
Arguments t : clear implicits.
End JsMap.

(** ** Records of the two in-memory stores *)

(** Membership record stored in [channel.users]. *)
Record Member : Type := mkMember {
  m_userId : value;
  m_socketId : string;
  m_joinedAt : Z
}.

(** Entry of [channels]. *)
Record Channel : Type := mkChannel {
  c_id : string;
  c_users : JsMap.t Member;
  c_createdAt : Z;
  c_messageCount : Z
}.

(** Entry of [users]. [u_currentChannel = None] is JavaScript [null]. *)
Record User : Type := mkUser {
  u_socketId : string;
  u_connectedAt : Z;
  u_currentChannel : option string;
  u_userId : value
}.

(** Truthiness of [user.currentChannel]. *)
Definition truthy_channel (c : option string) : bool :=
  match c with
  | Some s => truthy_str s
  | None => false
  end.

(** ** Transport: Socket.IO rooms

    The adapter keeps a set of (room, socket) bindings.  A socket is bound
    to the room named by its own id when it connects, [socket.join(r)] and
    [socket.leave(r)] add and remove one binding, and closing a socket
    removes all its bindings before the [disconnect] handler runs.
    [socket.to(r).emit] reaches the sockets bound to [r] other than the
    sender, [io.to(r).emit] reaches every socket bound to [r] (with [r] a
    socket id: the room of that socket), [socket.emit] reaches the socket
    itself. *)

Definition Rooms : Type := list (string * string).

Definition bound (rs : Rooms) (room sid : string) : bool :=
  existsb (fun b => String.eqb (fst b) room && String.eqb (snd b) sid) rs.

Definition socket_join (rs : Rooms) (sid room : string) : Rooms :=
  if bound rs room sid then rs else (rs ++ [(room, sid)])%list.

Definition socket_leave (rs : Rooms) (sid room : string) : Rooms :=
  filter (fun b => negb (String.eqb (fst b) room && String.eqb (snd b) sid)) rs.

Definition socket_leave_all (rs : Rooms) (sid : string) : Rooms :=
  filter (fun b => negb (String.eqb (snd b) sid)) rs.

(** Sockets bound to a room, each listed once, in binding order. *)
Definition room_sockets (rs : Rooms) (room : string) : list string :=
  nodup string_dec
    (map snd (filter (fun b => String.eqb (fst b) room) rs)).

(** [sid] is bound to [room]. *)
Definition in_room (rs : Rooms) (room sid : string) : bool :=
  existsb (String.eqb sid) (room_sockets rs room).

(** ** Outbound events *)

Inductive event : Type :=
| Connected (socketId : string) (timestamp : Z)
| ChannelUsers (userList : list value)
| UserJoined (userId : value)
| UserLeft (userId : value)
| TransmissionStart (userId : value) (timestamp : Z)
| TransmissionEnd (userId : value) (timestamp : Z)
| Pong (timestamp : Z)
| AudioReceived (userId : value) (audioData : string) (timestamp : Z)
| AudioMessage (userId : value) (audioUrl : string) (timestamp : Z)
| AudioChunk (userId : value) (chunk : string) (sequence : Z) (timestamp : Z)
| WebrtcOffer (sender : value) (offer : string)
| WebrtcAnswer (sender : value) (answer : string)
| WebrtcIceCandidate (userId : value) (candidate : string)  (* 'webrtc-ice-candidate' *)
| IceCandidate (sender : value) (candidate : string)        (* 'ice-candidate' *)
| WebrtcConnectionRequest (userId : value).

(** The three ways the handlers emit. *)
Inductive emission : Type :=
| EmitSelf (sid : string) (e : event)                  (* socket.emit(e) *)
| EmitRoomExcept (room sender : string) (e : event)    (* socket.to(room).emit(e) *)
| EmitRoom (room : string) (e : event).                (* io.to(room).emit(e) *)

Definition emitted_event (a : emission) : event :=
  match a with
  | EmitSelf _ e => e
  | EmitRoomExcept _ _ e => e
  | EmitRoom _ e => e
  end.

(** Sockets that receive an emission under the room table [rs]. *)
Definition recipients (rs : Rooms) (a : emission) : list string :=
  match a with
  | EmitSelf sid _ => [sid]
  | EmitRoomExcept room sender _ =>
      filter (fun s => negb (String.eqb s sender)) (room_sockets rs room)
  | EmitRoom room _ => room_sockets rs room
  end.

(** What one socket receives from a list of emissions. *)
Definition received (rs : Rooms) (sid : string) (out : list emission) : list event :=
  map emitted_event
    (filter (fun a => existsb (String.eqb sid) (recipients rs a)) out).

(** ** Server state *)

Record State : Type := mkState {
  channels : JsMap.t Channel;
  users : JsMap.t User;
  rooms : Rooms
}.

Definition init : State := mkState [] [] [].

(** Inbound payload object.  A handler destructures the fields it names
    and ignores the others; an absent identity field reads [VUndefined],
    an absent [timestamp] reads [None]. *)
Record Payload : Type := mkPayload {
  channelId : string;
  userId : value;
  targetUserId : value;
  to : value;
  body : string;           (* offer / answer / candidate / audioData / audioUrl / chunk *)
  sequence : Z;
  timestamp : option Z
}.

Definition Result : Type := (State * list emission)%type.

(** ** Handlers shared by both iterations *)

(** [io.on('connection', ...)]: the transport binds the socket to its own
    room, the handler registers the session and greets the socket. *)
Definition connection (st : State) (sid : string) (now : Z) : Result :=
  let rooms1 := socket_join (rooms st) sid sid in
  let users1 := JsMap.set (users st) sid (mkUser sid now None VNull) in
  (mkState (channels st) users1 rooms1,
   [EmitSelf sid (Connected sid now)]).

(** [socket.on('join-channel', ({ channelId, userId }) => ...)] *)
Definition join_channel (st : State) (sid : string) (p : Payload) (now : Z) : Result :=
  let channelId := channelId p in
  let userId := userId p in
  (* create the channel when it does not exist *)
  let channels1 :=
    if negb (JsMap.has (channels st) channelId)
    then JsMap.set (channels st) channelId (mkChannel channelId [] now 0)
    else channels st in
  match JsMap.get channels1 channelId with
  | None => (st, [])
  | Some channel =>
      (* channel.users.set(socket.id, {...}) *)
      let channel1 :=
        mkChannel (c_id channel)
                  (JsMap.set (c_users channel) sid (mkMember userId sid now))
                  (c_createdAt channel) (c_messageCount channel) in
      let channels2 := JsMap.set channels1 channelId channel1 in
      (* update the registry record *)
      let users1 :=
        match JsMap.get (users st) sid with
        | Some user =>
            JsMap.set (users st) sid
              (mkUser (u_socketId user) (u_connectedAt user) (Some channelId) userId)
        | None => users st
        end in
      let rooms1 := socket_join (rooms st) sid channelId in
      let userList :=
        map m_userId
          (filter (fun u => negb (String.eqb (m_socketId u) sid))
                  (JsMap.values (c_users channel1))) in
      (mkState channels2 users1 rooms1,
       [EmitSelf sid (ChannelUsers userList);
        EmitRoomExcept channelId sid (UserJoined userId)])
  end.

(** [socket.on('leave-channel', ({ channelId, userId }) => ...)] *)
Definition leave_channel (st : State) (sid : string) (p : Payload) : Result :=
  let channelId := channelId p in
  let userId := userId p in
  let '(channels1, rooms1, out) :=
    match JsMap.get (channels st) channelId with
    | Some channel =>
        let channel1 :=
          mkChannel (c_id channel) (JsMap.delete (c_users channel) sid)
                    (c_createdAt channel) (c_messageCount channel) in
        let chs := JsMap.set (channels st) channelId channel1 in
        let rs := socket_leave (rooms st) sid channelId in
        let out := [EmitRoomExcept channelId sid (UserLeft userId)] in
        (* delete the channel when it is empty *)
        if JsMap.size (c_users channel1) =? 0
        then (JsMap.delete chs channelId, rs, out)
        else (chs, rs, out)
    | None => (channels st, rooms st, [])
    end in
  let users1 :=
    match JsMap.get (users st) sid with
    | Some user =>
        JsMap.set (users st) sid
          (mkUser (u_socketId user) (u_connectedAt user) None (u_userId user))
    | None => users st
    end in
  (mkState channels1 users1 rooms1, out).

(** [socket.on('disconnect', () => ...)], the handler alone. *)
Definition on_disconnect (st : State) (sid : string) : Result :=
  let '(channels1, out) :=
    match JsMap.get (users st) sid with
    | Some user =>
        if truthy_channel (u_currentChannel user) then
          match u_currentChannel user with
          | Some currentChannel =>
              match JsMap.get (channels st) currentChannel with
              | Some channel =>
                  let channel1 :=
                    mkChannel (c_id channel) (JsMap.delete (c_users channel) sid)
                              (c_createdAt channel) (c_messageCount channel) in
                  let chs := JsMap.set (channels st) currentChannel channel1 in
                  let out := [EmitRoomExcept currentChannel sid (UserLeft (u_userId user))] in
                  if JsMap.size (c_users channel1) =? 0
                  then (JsMap.delete chs currentChannel, out)
                  else (chs, out)
              | None => (channels st, [])
              end
          | None => (channels st, [])
          end
        else (channels st, [])
    | None => (channels st, [])
    end in
  (mkState channels1 (JsMap.delete (users st) sid) (rooms st), out).

(** A socket closes: the transport drops its room bindings, then the
    [disconnect] handler runs. *)
Definition disconnect (st : State) (sid : string) : Result :=
  on_disconnect
    (mkState (channels st) (users st) (socket_leave_all (rooms st) sid)) sid.

(** [socket.on('get-channel-users', ({ channelId }) => ...)] *)
Definition get_channel_users (st : State) (sid : string) (p : Payload) : Result :=
  match JsMap.get (channels st) (channelId p) with
  | Some channel =>
      (st, [EmitSelf sid (ChannelUsers (map m_userId (JsMap.values (c_users channel))))])
  | None => (st, [EmitSelf sid (ChannelUsers [])])
  end.

(** [socket.on('ping', ...)] *)
Definition ping (st : State) (sid : string) (now : Z) : Result :=
  (st, [EmitSelf sid (Pong now)]).

(** The periodic sweep of empty channels; returns the number cleaned. *)
Definition sweep_empty_channels (st : State) : State * Z :=
  let kept := filter (fun e => negb (JsMap.size (c_users (snd e)) =? 0)) (channels st) in
  (mkState kept (users st) (rooms st),
   JsMap.size (channels st) - JsMap.size kept).

(** [channel.messageCount++] when the channel exists. *)
Definition increment_messageCount (chs : JsMap.t Channel) (channelId : string)
  : JsMap.t Channel :=
  match JsMap.get chs channelId with
  | Some channel =>
      JsMap.set chs channelId
        (mkChannel (c_id channel) (c_users channel) (c_createdAt channel)
                   (c_messageCount channel + 1))
  | None => chs
  end.

(** What each socket receives from a handler's emissions, resolved against
    the room table the handler leaves behind (the handlers change room
    bindings only for the sender, and before they emit). *)
Definition delivered (r : Result) (sid : string) : list event :=
  received (rooms (fst r)) sid (snd r).

(** [timestamp || Date.now()] *)
Definition timestamp_or_now (t : option Z) (now : Z) : Z :=
  match t with
  | Some v => if v =? 0 then now else v
  | None => now
  end.

(** ** The channel-scoped iteration (version 1.0.0) *)

Module ChannelScoped.

(** [socket.on('audio-data', (data) => ...)] *)
Definition audio_data (st : State) (sid : string) (p : Payload) (now : Z) : Result :=
  (mkState (increment_messageCount (channels st) (channelId p)) (users st) (rooms st),
   [EmitRoomExcept (channelId p) sid
      (AudioReceived (userId p) (body p) (timestamp_or_now (timestamp p) now))]).

(** [socket.on('audio-url', (data) => ...)] *)
Definition audio_url (st : State) (sid : string) (p : Payload) (now : Z) : Result :=
  (mkState (increment_messageCount (channels st) (channelId p)) (users st) (rooms st),
   [EmitRoomExcept (channelId p) sid
      (AudioMessage (userId p) (body p) (timestamp_or_now (timestamp p) now))]).

(** [socket.on('transmission-start', ({ channelId, userId }) => ...)] *)
Definition transmission_start (st : State) (sid : string) (p : Payload) (now : Z) : Result :=
  (st, [EmitRoomExcept (channelId p) sid (TransmissionStart (userId p) now)]).

(** [socket.on('transmission-end', ({ channelId, userId }) => ...)] *)
Definition transmission_end (st : State) (sid : string) (p : Payload) (now : Z) : Result :=
  (st, [EmitRoomExcept (channelId p) sid (TransmissionEnd (userId p) now)]).

(** [socket.on('audio-chunk', (data) => ...)] *)
Definition audio_chunk (st : State) (sid : string) (p : Payload) (now : Z) : Result :=
  let uid :=
    match JsMap.get (users st) sid with
    | Some user => u_userId user
    | None => VUndefined
    end in
  (st, [EmitRoomExcept (channelId p) sid (AudioChunk uid (body p) (sequence p) now)]).

(** [Array.from(channel.users.values()).find(u => u.userId === targetUserId)] *)
Definition find_target (channel : Channel) (targetUserId : value) : option Member :=
  JsMap.find (fun u => value_eqb (m_userId u) targetUserId)
             (JsMap.values (c_users channel)).

(** [socket.on('webrtc-offer', ({ channelId, userId, offer }) => ...)] *)
Definition webrtc_offer (st : State) (sid : string) (p : Payload) : Result :=
  (st, [EmitRoomExcept (channelId p) sid (WebrtcOffer (userId p) (body p))]).

(** [socket.on('webrtc-answer', ({ channelId, userId, answer, targetUserId }) => ...)] *)
Definition webrtc_answer (st : State) (sid : string) (p : Payload) : Result :=
  match JsMap.get (channels st) (channelId p) with
  | Some channel =>
      match find_target channel (targetUserId p) with
      | Some targetUser =>
          (st, [EmitRoom (m_socketId targetUser) (WebrtcAnswer (userId p) (body p))])
      | None => (st, [])
      end
  | None => (st, [])
  end.

(** [socket.on('webrtc-ice-candidate',
               ({ channelId, userId, candidate, targetUserId }) => ...)] *)
Definition webrtc_ice_candidate (st : State) (sid : string) (p : Payload) : Result :=
  if truthy (targetUserId p) then
    match JsMap.get (channels st) (channelId p) with
    | Some channel =>
        match find_target channel (targetUserId p) with
        | Some targetUser =>
            (st, [EmitRoom (m_socketId targetUser)
                           (WebrtcIceCandidate (userId p) (body p))])
        | None => (st, [])
        end
    | None => (st, [])
    end
  else
    (st, [EmitRoomExcept (channelId p) sid (WebrtcIceCandidate (userId p) (body p))]).

(** [socket.on('request-webrtc-connection',
               ({ channelId, userId, targetUserId }) => ...)] *)
Definition request_webrtc_connection (st : State) (sid : string) (p : Payload) : Result :=
  match JsMap.get (channels st) (channelId p) with
  | Some channel =>
      match find_target channel (targetUserId p) with
      | Some targetUser =>
          (st, [EmitRoom (m_socketId targetUser) (WebrtcConnectionRequest (userId p))])
      | None => (st, [])
      end
  | None => (st, [])
  end.

(** Inbound events of this iteration. *)
Inductive input : Type :=
| OnConnection (sid : string) (now : Z)
| OnJoinChannel (sid : string) (p : Payload) (now : Z)
| OnLeaveChannel (sid : string) (p : Payload)
| OnAudioData (sid : string) (p : Payload) (now : Z)
| OnAudioUrl (sid : string) (p : Payload) (now : Z)
| OnTransmissionStart (sid : string) (p : Payload) (now : Z)
| OnTransmissionEnd (sid : string) (p : Payload) (now : Z)
| OnAudioChunk (sid : string) (p : Payload) (now : Z)
| OnPing (sid : string) (now : Z)
| OnGetChannelUsers (sid : string) (p : Payload)
| OnWebrtcOffer (sid : string) (p : Payload)
| OnWebrtcAnswer (sid : string) (p : Payload)
| OnWebrtcIceCandidate (sid : string) (p : Payload)
| OnRequestWebrtcConnection (sid : string) (p : Payload)
| OnDisconnect (sid : string)
| OnSweep.

Definition step (st : State) (i : input) : Result :=
  match i with
  | OnConnection sid now => connection st sid now
  | OnJoinChannel sid p now => join_channel st sid p now
  | OnLeaveChannel sid p => leave_channel st sid p
  | OnAudioData sid p now => audio_data st sid p now
  | OnAudioUrl sid p now => audio_url st sid p now
  | OnTransmissionStart sid p now => transmission_start st sid p now
  | OnTransmissionEnd sid p now => transmission_end st sid p now
  | OnAudioChunk sid p now => audio_chunk st sid p now
  | OnPing sid now => ping st sid now
  | OnGetChannelUsers sid p => get_channel_users st sid p
  | OnWebrtcOffer sid p => webrtc_offer st sid p
  | OnWebrtcAnswer sid p => webrtc_answer st sid p
  | OnWebrtcIceCandidate sid p => webrtc_ice_candidate st sid p
  | OnRequestWebrtcConnection sid p => request_webrtc_connection st sid p
  | OnDisconnect sid => disconnect st sid
  | OnSweep => (fst (sweep_empty_channels st), [])
  end.

(** State after a sequence of inbound events. *)
Definition run (st : State) (evs : list input) : State :=
  fold_left (fun s i => fst (step s i)) evs st.

End ChannelScoped.

(** ** The globally addressed iteration (version 2.0.0) *)

Module GlobalAddr.

(** [function findSocketIdByUserId(userId)] *)
Fixpoint findSocketIdByUserId (us : JsMap.t User) (userId : value) : option string :=
  match us with
  | [] => None
  | (socketId, user) :: r =>
      if value_eqb (u_userId user) userId then Some socketId
      else findSocketIdByUserId r userId
  end.

(** [users.get(socket.id)?.userId || socket.id] *)
Definition from_of (st : State) (sid : string) : value :=
  js_or (match JsMap.get (users st) sid with
         | Some user => u_userId user
         | None => VUndefined
         end)
        (VStr sid).

(** [socket.on('webrtc-offer', ({ to, offer }) => ...)] *)
Definition webrtc_offer (st : State) (sid : string) (p : Payload) : Result :=
  match findSocketIdByUserId (users st) (to p) with
  | Some targetSocketId =>
      if truthy_str targetSocketId
      then (st, [EmitRoom targetSocketId (WebrtcOffer (from_of st sid) (body p))])
      else (st, [])
  | None => (st, [])
  end.

(** [socket.on('webrtc-answer', ({ to, answer }) => ...)] *)
Definition webrtc_answer (st : State) (sid : string) (p : Payload) : Result :=
  match findSocketIdByUserId (users st) (to p) with
  | Some targetSocketId =>
      if truthy_str targetSocketId
      then (st, [EmitRoom targetSocketId (WebrtcAnswer (from_of st sid) (body p))])
      else (st, [])
  | None => (st, [])
  end.

(** [socket.on('ice-candidate', ({ to, candidate }) => ...)] *)
Definition ice_candidate (st : State) (sid : string) (p : Payload) : Result :=
  match findSocketIdByUserId (users st) (to p) with
  | Some targetSocketId =>
      if truthy_str targetSocketId
      then (st, [EmitRoom targetSocketId (IceCandidate (from_of st sid) (body p))])
      else (st, [])
  | None => (st, [])
  end.

(** [socket.on('transmission-start', ({ channelId, userId }) => ...)] *)
Definition transmission_start (st : State) (sid : string) (p : Payload) (now : Z) : Result :=
  (mkState (increment_messageCount (channels st) (channelId p)) (users st) (rooms st),
   [EmitRoomExcept (channelId p) sid (TransmissionStart (userId p) now)]).

(** [socket.on('transmission-end', ({ channelId, userId }) => ...)] *)
Definition transmission_end (st : State) (sid : string) (p : Payload) (now : Z) : Result :=
  (st, [EmitRoomExcept (channelId p) sid (TransmissionEnd (userId p) now)]).

(** Inbound events of this iteration. *)
Inductive input : Type :=
| OnConnection (sid : string) (now : Z)
| OnJoinChannel (sid : string) (p : Payload) (now : Z)
| OnLeaveChannel (sid : string) (p : Payload)
| OnWebrtcOffer (sid : string) (p : Payload)
| OnWebrtcAnswer (sid : string) (p : Payload)
| OnIceCandidate (sid : string) (p : Payload)
| OnTransmissionStart (sid : string) (p : Payload) (now : Z)
| OnTransmissionEnd (sid : string) (p : Payload) (now : Z)
| OnPing (sid : string) (now : Z)
| OnGetChannelUsers (sid : string) (p : Payload)
| OnDisconnect (sid : string)
| OnSweep.

Definition step (st : State) (i : input) : Result :=
  match i with
  | OnConnection sid now => connection st sid now
  | OnJoinChannel sid p now => join_channel st sid p now
  | OnLeaveChannel sid p => leave_channel st sid p
  | OnWebrtcOffer sid p => webrtc_offer st sid p
  | OnWebrtcAnswer sid p => webrtc_answer st sid p
  | OnIceCandidate sid p => ice_candidate st sid p
  | OnTransmissionStart sid p now => transmission_start st sid p now
  | OnTransmissionEnd sid p now => transmission_end st sid p now
  | OnPing sid now => ping st sid now
  | OnGetChannelUsers sid p => get_channel_users st sid p
  | OnDisconnect sid => disconnect st sid
  | OnSweep => (fst (sweep_empty_channels st), [])
  end.

Definition run (st : State) (evs : list input) : State :=
  fold_left (fun s i => fst (step s i)) evs st.

End GlobalAddr.

(** ** Observations on a state *)

(** Member map of a channel; empty when the channel is not in the directory. *)
Definition members (st : State) (c : string) : JsMap.t Member :=
  match JsMap.get (channels st) c with
  | Some channel => c_users channel
  | None => []
  end.

Definition member_count (st : State) (c : string) : Z := JsMap.size (members st c).

Definition is_member (st : State) (c sid : string) : bool := JsMap.has (members st c) sid.

(** Invariant I1 of the data model, as the specification words it. *)
Definition I1 (st : State) : Prop :=
  forall sid user c,
    JsMap.get (users st) sid = Some user ->
    (u_currentChannel user = Some c <-> is_member st c sid = true).

(** The directory update that [leave-channel] and [disconnect] both
    perform: drop the socket from the channel's member map, then drop the
    channel when that map has become empty. *)
Definition remove_member (chs : JsMap.t Channel) (c sid : string) : JsMap.t Channel :=
  match JsMap.get chs c with
  | Some channel =>
      let channel1 :=
        mkChannel (c_id channel) (JsMap.delete (c_users channel) sid)
                  (c_createdAt channel) (c_messageCount channel) in
      if JsMap.size (c_users channel1) =? 0
      then JsMap.delete (JsMap.set chs c channel1) c
      else JsMap.set chs c channel1
  | None => chs
  end.

(** [m] is the first record of [l], in enumeration order, whose [userId]
    is [t]. *)
Definition first_with_userId (l : list Member) (t : value) (m : Member) : Prop :=
  exists l1 l2,
    l = (l1 ++ m :: l2)%list /\ m_userId m = t /\
    forall x, In x l1 -> m_userId x <> t.

(** What holds in every reachable state: the "only if" half of I1, member
    records keyed by their own socket id, and no empty channel left in the
    directory once a step has completed. *)
Record Inv (st : State) : Prop := mkInv {
  inv_current :
    forall sid user c,
      JsMap.get (users st) sid = Some user ->
      u_currentChannel user = Some c ->
      is_member st c sid = true;
  inv_keyed :
    forall c channel k m,
      In (c, channel) (channels st) -> In (k, m) (c_users channel) ->
      m_socketId m = k;
  inv_nonempty :
    forall c channel, In (c, channel) (channels st) -> c_users channel <> []
}.

(** ** Scenarios: small reachable states *)

(** A payload that carries only [channelId] and [userId]. *)
Definition msg (c : string) (u : value) : Payload :=
  mkPayload c u VUndefined VUndefined "" 0 None.

(** Connection A alone in room1, joined at time 2. *)
Definition alone_in_room1 : State :=
  GlobalAddr.run init
    [GlobalAddr.OnConnection "A" 1;
     GlobalAddr.OnJoinChannel "A" (msg "room1" (VStr "userA")) 2].

(** A payload addressed to [dest], by [to] and by [targetUserId] alike. *)
Definition signal (c : string) (u dest : value) (b : string) : Payload :=
  mkPayload c u dest dest b 0 None.

(** A in room1 and B in room2, each joined once. *)
Definition two_rooms : State :=
  GlobalAddr.run init
    [GlobalAddr.OnConnection "A" 1;
     GlobalAddr.OnConnection "B" 2;
     GlobalAddr.OnJoinChannel "A" (msg "room1" (VStr "userA")) 3;
     GlobalAddr.OnJoinChannel "B" (msg "room2" (VStr "userB")) 4].

(** A, B and C joined to room1 as userA, userB and userC. *)
Definition three_in_room1 : State :=
  ChannelScoped.run init
    [ChannelScoped.OnConnection "A" 1;
     ChannelScoped.OnConnection "B" 2;
     ChannelScoped.OnConnection "C" 3;
     ChannelScoped.OnJoinChannel "A" (msg "room1" (VStr "userA")) 4;
     ChannelScoped.OnJoinChannel "B" (msg "room1" (VStr "userB")) 5;
     ChannelScoped.OnJoinChannel "C" (msg "room1" (VStr "userC")) 6].

(** A joins room1 and then room2 without leaving room1. *)
Definition joined_twice : State :=
  GlobalAddr.run init
    [GlobalAddr.OnConnection "A" 1;
     GlobalAddr.OnJoinChannel "A" (msg "room1" (VStr "userA")) 2;
     GlobalAddr.OnJoinChannel "A" (msg "room2" (VStr "userA")) 3].

(** After [joined_twice], A disconnects and J connects. *)
Definition ghost_in_room1 : State :=
  GlobalAddr.run joined_twice
    [GlobalAddr.OnDisconnect "A"; GlobalAddr.OnConnection "J" 5].

(** A and B in room1; A then joins room2 as well. *)
Definition moved_on : State :=
  GlobalAddr.run init
    [GlobalAddr.OnConnection "A" 1;
     GlobalAddr.OnConnection "B" 2;
     GlobalAddr.OnJoinChannel "A" (msg "room1" (VStr "userA")) 3;
     GlobalAddr.OnJoinChannel "B" (msg "room1" (VStr "userB")) 4;
     GlobalAddr.OnJoinChannel "A" (msg "room2" (VStr "userA")) 5].

(** ** Further observations and the read-only endpoints *)

(** [sid] is the first registered connection, in registration order, whose
    stored [userId] is [t]. *)
Definition first_user_with (us : JsMap.t User) (t : value) (sid : string) (user : User)
  : Prop :=
  exists l1 l2,
    us = (l1 ++ (sid, user) :: l2)%list /\ u_userId user = t /\
    forall k u, In (k, u) l1 -> u_userId u <> t.

(** [messageCount] of a channel; 0 when the channel is not in the directory. *)
Definition message_count (st : State) (c : string) : Z :=
  match JsMap.get (channels st) c with
  | Some channel => c_messageCount channel
  | None => 0
  end.

(** No socket id is bound to a room or registered yet. *)
Definition fresh_socket (st : State) (sid : string) : Prop :=
  JsMap.get (users st) sid = None /\
  forall b, In b (rooms st) -> snd b <> sid.

(** The counts that [GET /] and [GET /health] report:
    [channels.size] and [users.size]. *)
Definition status_counts (st : State) : Z * Z :=
  (JsMap.size (channels st), JsMap.size (users st)).

(** One entry of the [GET /channels] listing. *)
Record ChannelInfo (U : Type) : Type := mkChannelInfo {
  i_id : string;
  i_userCount : Z;
  i_users : list U
}.
Arguments mkChannelInfo {U}.
Arguments i_id {U}.
Arguments i_userCount {U}.
Arguments i_users {U}.

(** [GET /channels] of the globally addressed iteration: each user is
    listed as [{ userId, socketId, joinedAt }]. *)
Definition channelList_global (st : State) : list (ChannelInfo (value * string * Z)) :=
  map (fun e =>
         mkChannelInfo (fst e) (JsMap.size (c_users (snd e)))
           (map (fun u => (m_userId u, m_socketId u, m_joinedAt u))
                (JsMap.values (c_users (snd e)))))
      (channels st).

(** [GET /channels] of the channel-scoped iteration: each user is listed as
    [{ userId, joinedAt }]. *)
Definition channelList_scoped (st : State) : list (ChannelInfo (value * Z)) :=
  map (fun e =>
         mkChannelInfo (fst e) (JsMap.size (c_users (snd e)))
           (map (fun u => (m_userId u, m_joinedAt u))
                (JsMap.values (c_users (snd e)))))
      (channels st).

(** The statistics timer:
    [Array.from(channels.values()).reduce((sum, ch) => sum + (ch.messageCount || 0), 0)]. *)
Definition totalMessages (chs : JsMap.t Channel) : Z :=
  fold_left
    (fun sum ch => sum + (if c_messageCount ch =? 0 then 0 else c_messageCount ch))
    (JsMap.values chs) 0.

(** Every key occurs once: the list stands for a [Map]. *)
Definition unique_keys {V : Type} (m : JsMap.t V) : Prop := NoDup (JsMap.keys m).

(** The three maps of a state stand for [Map]s: no channel id, no
    registered socket id and no member socket id of a channel occurs twice. *)
Definition WellKeyed (st : State) : Prop :=
  unique_keys (channels st) /\
  unique_keys (users st) /\
  forall c ch, In (c, ch) (channels st) -> unique_keys (c_users ch).

(** Every binding of a socket to a room other than its own is backed by an
    entry in that channel's member map. *)
Definition BoundAreMembers (st : State) : Prop :=
  forall c sid, In (c, sid) (rooms st) -> c <> sid -> is_member st c sid = true.

(** * Facts about identities *)

Lemma value_eqb_eq (a b : value) : value_eqb a b = true <-> a = b.
Proof.
  destruct a, b; simpl; split; intro H; try congruence; try discriminate.
  - apply String.eqb_eq in H. now subst.
  - inversion H. apply String.eqb_refl.
Qed.

Lemma value_eqb_refl (a : value) : value_eqb a a = true.
Proof. now apply value_eqb_eq. Qed.

(** * Facts about [JsMap] *)

Section JsMapFacts.
Context {V : Type}.
Implicit Types (m : JsMap.t V) (k : string) (v : V).

Lemma get_set_eq m k v : JsMap.get (JsMap.set m k v) k = Some v.
Proof.
  induction m as [|[k' v'] r IH]; simpl.
  - now rewrite String.eqb_refl.
  - destruct (String.eqb k' k) eqn:E; simpl.
    + now rewrite String.eqb_refl.
    + now rewrite E.
Qed.

Lemma get_set_ne m k k0 v : k <> k0 -> JsMap.get (JsMap.set m k v) k0 = JsMap.get m k0.
Proof.
  intros Hne. induction m as [|[k' v'] r IH]; simpl.
  - destruct (String.eqb k k0) eqn:E; [apply String.eqb_eq in E; contradiction | reflexivity].
  - destruct (String.eqb k' k) eqn:E; simpl.
    + apply String.eqb_eq in E. subst k'.
      destruct (String.eqb k k0) eqn:E0; [apply String.eqb_eq in E0; contradiction | reflexivity].
    + now rewrite IH.
Qed.

Lemma get_delete_eq m k : JsMap.get (JsMap.delete m k) k = None.
Proof.
  induction m as [|[k' v'] r IH]; simpl; [reflexivity|].
  destruct (String.eqb k' k) eqn:E; simpl; [assumption | now rewrite E].
Qed.

Lemma get_delete_ne m k k0 : k <> k0 -> JsMap.get (JsMap.delete m k) k0 = JsMap.get m k0.
Proof.
  intros Hne. induction m as [|[k' v'] r IH]; simpl; [reflexivity|].
  destruct (String.eqb k' k) eqn:E; simpl.
  - apply String.eqb_eq in E. subst k'.
    destruct (String.eqb k k0) eqn:E0; [apply String.eqb_eq in E0; contradiction | assumption].
  - now rewrite IH.
Qed.

Lemma delete_absent m k : JsMap.get m k = None -> JsMap.delete m k = m.
Proof.
  induction m as [|[k' v'] r IH]; simpl; [reflexivity|].
  destruct (String.eqb k' k) eqn:E; [discriminate|].
  intros H. now rewrite IH.
Qed.

Lemma delete_idem m k : JsMap.delete (JsMap.delete m k) k = JsMap.delete m k.
Proof. apply delete_absent, get_delete_eq. Qed.

Lemma set_absent m k v : JsMap.get m k = None -> JsMap.set m k v = (m ++ [(k, v)])%list.
Proof.
  induction m as [|[k' v'] r IH]; simpl; [reflexivity|].
  destruct (String.eqb k' k) eqn:E; [discriminate|].
  intros H. now rewrite IH.
Qed.

Lemma set_same m k v : JsMap.get m k = Some v -> JsMap.set m k v = m.
Proof.
  induction m as [|[k' v'] r IH]; simpl; [discriminate|].
  destruct (String.eqb k' k) eqn:E.
  - apply String.eqb_eq in E. subst k'. intros H. now inversion H.
  - intros H. now rewrite IH.
Qed.

Lemma set_set m k v v' : JsMap.set (JsMap.set m k v) k v' = JsMap.set m k v'.
Proof.
  induction m as [|[k' v0] r IH]; simpl.
  - now rewrite String.eqb_refl.
  - destruct (String.eqb k' k) eqn:E; simpl.
    + now rewrite String.eqb_refl.
    + now rewrite E, IH.
Qed.

Lemma delete_set_absent m k v : JsMap.get m k = None -> JsMap.delete (JsMap.set m k v) k = m.
Proof.
  induction m as [|[k' v'] r IH]; simpl.
  - now rewrite String.eqb_refl.
  - destruct (String.eqb k' k) eqn:E; [discriminate|].
    intros H. simpl. now rewrite E, IH.
Qed.

Lemma keys_set_present m k v v0 :
  JsMap.get m k = Some v0 -> JsMap.keys (JsMap.set m k v) = JsMap.keys m.
Proof.
  unfold JsMap.keys.
  induction m as [|[k' v'] r IH]; simpl; [discriminate|].
  destruct (String.eqb k' k) eqn:E; simpl.
  - apply String.eqb_eq in E. now subst k'.
  - intros H. f_equal. now apply IH.
Qed.

Lemma get_Some_In m k v : JsMap.get m k = Some v -> In (k, v) m.
Proof.
  induction m as [|[k' v'] r IH]; simpl; [discriminate|].
  destruct (String.eqb k' k) eqn:E.
  - apply String.eqb_eq in E. subst k'. intros H. inversion H. now left.
  - intros H. right. now apply IH.
Qed.

Lemma get_None_not_In m k v : JsMap.get m k = None -> ~ In (k, v) m.
Proof.
  induction m as [|[k' v'] r IH]; simpl; [tauto|].
  destruct (String.eqb k' k) eqn:E; [discriminate|].
  intros H [Heq | Hin].
  - inversion Heq. subst. now rewrite String.eqb_refl in E.
  - now apply IH.
Qed.

Lemma In_get_not_None m k v : In (k, v) m -> JsMap.get m k <> None.
Proof. intros Hin Hn. exact (get_None_not_In m k v Hn Hin). Qed.

Lemma has_true_iff m k : JsMap.has m k = true <-> JsMap.get m k <> None.
Proof. unfold JsMap.has. destruct (JsMap.get m k); split; congruence. Qed.

Lemma has_false_iff m k : JsMap.has m k = false <-> JsMap.get m k = None.
Proof. unfold JsMap.has. destruct (JsMap.get m k); split; congruence. Qed.

Lemma size_zero_iff m : (JsMap.size m =? 0) = true <-> m = [].
Proof.
  unfold JsMap.size. destruct m; simpl; split; intro H;
    try reflexivity; discriminate.
Qed.
End JsMapFacts.

(** * Join followed by leave *)

(** The channel lookup of [join_channel] never misses: the branch that
    would read [channel.users] of [undefined] is dead. *)
Lemma join_channel_lookup (st : State) (c : string) (now : Z) :
  JsMap.get
    (if negb (JsMap.has (channels st) c)
     then JsMap.set (channels st) c (mkChannel c [] now 0)
     else channels st) c
  = Some (match JsMap.get (channels st) c with
          | Some channel => channel
          | None => mkChannel c [] now 0
          end).
Proof.
  unfold JsMap.has. destruct (JsMap.get (channels st) c) eqn:E; simpl.
  - assumption.
  - apply get_set_eq.
Qed.

(** Directory after a join, in closed form. *)
Lemma join_channel_channels (st : State) (sid : string) (p : Payload) (now : Z) :
  channels (fst (join_channel st sid p now))
  = JsMap.set (channels st) (channelId p)
      (match JsMap.get (channels st) (channelId p) with
       | Some channel =>
           mkChannel (c_id channel)
             (JsMap.set (c_users channel) sid (mkMember (userId p) sid now))
             (c_createdAt channel) (c_messageCount channel)
       | None =>
           mkChannel (channelId p) [(sid, mkMember (userId p) sid now)] now 0
       end).
Proof.
  unfold join_channel. rewrite join_channel_lookup.
  unfold JsMap.has. destruct (JsMap.get (channels st) (channelId p)) eqn:E; simpl.
  - reflexivity.
  - apply set_set.
Qed.

(** C5. A connection that joins a channel absent from the directory and
    then leaves that same channel brings the member count back to zero
    (0 before, 1 in between, 0 after), and the leave step itself deletes
    the channel: right after it the channel id is absent and the directory
    is exactly what it was before the join. *)
Theorem join_then_leave_deletes_channel
  (st : State) (sid : string) (pj pl : Payload) (now : Z) :
  JsMap.has (channels st) (channelId pj) = false ->
  channelId pl = channelId pj ->
  let st1 := fst (join_channel st sid pj now) in
  let st2 := fst (leave_channel st1 sid pl) in
  member_count st (channelId pj) = 0 /\
  member_count st1 (channelId pj) = 1 /\
  member_count st2 (channelId pj) = 0 /\
  JsMap.has (channels st2) (channelId pj) = false /\
  channels st2 = channels st.
Proof.
  intros Habs Hsame st1 st2.
  apply has_false_iff in Habs.
  assert (H1 : channels st1
               = JsMap.set (channels st) (channelId pj)
                   (mkChannel (channelId pj)
                      [(sid, mkMember (userId pj) sid now)] now 0)).
  { unfold st1. rewrite join_channel_channels. now rewrite Habs. }
  assert (H2 : channels st2 = channels st).
  { unfold st2, leave_channel. rewrite Hsame, H1, get_set_eq. simpl.
    rewrite String.eqb_refl. simpl.
    rewrite set_set. now apply delete_set_absent. }
  unfold member_count, members.
  rewrite H2, H1, get_set_eq, Habs. simpl.
  rewrite (proj2 (has_false_iff _ _) Habs).
  repeat split; reflexivity.
Qed.

(** Witness of C5 on the empty server. *)
Lemma join_then_leave_deletes_channel_witness :
  let pj := mkPayload "room1" (VStr "userA") VUndefined VUndefined "" 0 None in
  let st1 := fst (join_channel init "A" pj 1) in
  let st2 := fst (leave_channel st1 "A" pj) in
  member_count init "room1" = 0 /\
  member_count st1 "room1" = 1 /\
  member_count st2 "room1" = 0 /\
  JsMap.has (channels st2) "room1" = false /\
  channels st2 = channels init.
Proof.
  exact (join_then_leave_deletes_channel init "A"
           (mkPayload "room1" (VStr "userA") VUndefined VUndefined "" 0 None)
           (mkPayload "room1" (VStr "userA") VUndefined VUndefined "" 0 None)
           1 eq_refl eq_refl).
Defined.

(** * Joining a channel twice *)

(** C3, counterexample.  A is already a member of room1; joining room1
    again at a later time, with the same payload, changes A's membership
    record: [joinedAt] moves from 2 to 7.  With another [userId] in the
    payload the stored [userId] changes as well. *)
Lemma rejoin_changes_record :
  is_member alone_in_room1 "room1" "A" = true /\
  JsMap.get (members alone_in_room1 "room1") "A"
    = Some (mkMember (VStr "userA") "A" 2) /\
  JsMap.get (members (fst (join_channel alone_in_room1 "A"
                             (msg "room1" (VStr "userA")) 7)) "room1") "A"
    = Some (mkMember (VStr "userA") "A" 7) /\
  JsMap.get (members (fst (join_channel alone_in_room1 "A"
                             (msg "room1" (VStr "other")) 7)) "room1") "A"
    = Some (mkMember (VStr "other") "A" 7) /\
  members (fst (join_channel alone_in_room1 "A" (msg "room1" (VStr "userA")) 7)) "room1"
    <> members alone_in_room1 "room1".
Proof. repeat split; try reflexivity. intro H. discriminate H. Qed.

(** C3, amended.  When the connection is already in the channel's member
    map, a second [join-channel] to that channel creates no new entry: the
    directory keeps its channel ids, the channel keeps its member ids in
    the same order and every other member's record; the connection's own
    record is overwritten with the payload's [userId] and a fresh
    [joinedAt]. *)
Theorem rejoin_keeps_member_ids
  (st : State) (sid : string) (p : Payload) (now : Z) (channel : Channel) (m0 : Member) :
  JsMap.get (channels st) (channelId p) = Some channel ->
  JsMap.get (c_users channel) sid = Some m0 ->
  let st1 := fst (join_channel st sid p now) in
  JsMap.keys (channels st1) = JsMap.keys (channels st) /\
  JsMap.keys (members st1 (channelId p)) = JsMap.keys (members st (channelId p)) /\
  JsMap.get (members st1 (channelId p)) sid = Some (mkMember (userId p) sid now) /\
  (forall k, k <> sid ->
     JsMap.get (members st1 (channelId p)) k = JsMap.get (members st (channelId p)) k) /\
  (forall c, c <> channelId p -> members st1 c = members st c).
Proof.
  intros Hch Hm st1.
  assert (H1 : channels st1
               = JsMap.set (channels st) (channelId p)
                   (mkChannel (c_id channel)
                      (JsMap.set (c_users channel) sid (mkMember (userId p) sid now))
                      (c_createdAt channel) (c_messageCount channel))).
  { unfold st1. rewrite join_channel_channels. now rewrite Hch. }
  unfold members. rewrite H1, get_set_eq, Hch. simpl.
  split; [ now apply keys_set_present with (v0 := channel) |].
  split; [ now apply keys_set_present with (v0 := m0) |].
  split; [ apply get_set_eq |].
  split.
  - intros k Hk. apply get_set_ne. congruence.
  - intros c Hc. rewrite get_set_ne by congruence. reflexivity.
Qed.

Lemma rejoin_keeps_member_ids_witness :
  let st1 := fst (join_channel alone_in_room1 "A" (msg "room1" (VStr "other")) 7) in
  JsMap.keys (channels st1) = JsMap.keys (channels alone_in_room1) /\
  JsMap.keys (members st1 "room1") = JsMap.keys (members alone_in_room1 "room1") /\
  JsMap.get (members st1 "room1") "A" = Some (mkMember (VStr "other") "A" 7) /\
  (forall k, k <> "A" ->
     JsMap.get (members st1 "room1") k = JsMap.get (members alone_in_room1 "room1") k) /\
  (forall c, c <> "room1" -> members st1 c = members alone_in_room1 c).
Proof.
  exact (rejoin_keeps_member_ids alone_in_room1 "A" (msg "room1" (VStr "other")) 7
           (mkChannel "room1" [("A", mkMember (VStr "userA") "A" 2)] 2 0)
           (mkMember (VStr "userA") "A" 2) eq_refl eq_refl).
Defined.

(** * Leaving a channel one is not in *)

(** C4, counterexample.  (1) A, joined to room1, leaves the unknown channel
    "nowhere": nothing is emitted, yet A's registry record loses its
    [currentChannel] while A stays in room1's member map.  (2) A leaves
    room2, of which it is not a member: B, the member of room2, receives a
    [user-left], and A's [currentChannel] is cleared as well. *)
Lemma leave_not_joined_is_not_noop :
  (JsMap.has (channels two_rooms) "nowhere" = false /\
   option_map u_currentChannel (JsMap.get (users two_rooms) "A") = Some (Some "room1") /\
   option_map u_currentChannel
     (JsMap.get (users (fst (leave_channel two_rooms "A" (msg "nowhere" (VStr "userA"))))) "A")
     = Some None /\
   is_member (fst (leave_channel two_rooms "A" (msg "nowhere" (VStr "userA")))) "room1" "A"
     = true /\
   fst (leave_channel two_rooms "A" (msg "nowhere" (VStr "userA"))) <> two_rooms) /\
  (is_member two_rooms "room2" "A" = false /\
   delivered (leave_channel two_rooms "A" (msg "room2" (VStr "userA"))) "B"
     = [UserLeft (VStr "userA")] /\
   fst (leave_channel two_rooms "A" (msg "room2" (VStr "userA"))) <> two_rooms).
Proof.
  repeat split; try reflexivity; intro H; discriminate H.
Qed.

(** C4, amended.  A [leave-channel] naming a channel id absent from the
    directory emits nothing and leaves the directory, the room bindings
    and every other connection's record untouched; it changes nothing at
    all when the caller has no current channel.  A [leave-channel] naming
    an existing, non-empty channel of which the caller is not a member
    leaves the directory untouched but is not silent: one [user-left]
    carrying the payload's [userId] is broadcast to that channel's room. *)
Theorem leave_not_joined (st : State) (sid : string) (p : Payload) :
  (JsMap.get (channels st) (channelId p) = None ->
     snd (leave_channel st sid p) = [] /\
     channels (fst (leave_channel st sid p)) = channels st /\
     rooms (fst (leave_channel st sid p)) = rooms st /\
     (forall k, k <> sid ->
        JsMap.get (users (fst (leave_channel st sid p))) k = JsMap.get (users st) k) /\
     ((forall user, JsMap.get (users st) sid = Some user -> u_currentChannel user = None) ->
        fst (leave_channel st sid p) = st)) /\
  (forall channel,
     JsMap.get (channels st) (channelId p) = Some channel ->
     JsMap.get (c_users channel) sid = None ->
     c_users channel <> [] ->
     snd (leave_channel st sid p)
       = [EmitRoomExcept (channelId p) sid (UserLeft (userId p))] /\
     channels (fst (leave_channel st sid p)) = channels st /\
     (forall k, k <> sid ->
        JsMap.get (users (fst (leave_channel st sid p))) k = JsMap.get (users st) k)).
Proof.
  assert (Hothers : forall k us,
            us = match JsMap.get (users st) sid with
                 | Some user =>
                     JsMap.set (users st) sid
                       (mkUser (u_socketId user) (u_connectedAt user) None (u_userId user))
                 | None => users st
                 end ->
            k <> sid -> JsMap.get us k = JsMap.get (users st) k).
  { intros k us -> Hk. destruct (JsMap.get (users st) sid); [|reflexivity].
    apply get_set_ne. congruence. }
  split.
  - intros Hnone. unfold leave_channel. rewrite Hnone. simpl.
    repeat split.
    + intros k Hk. now apply Hothers.
    + intros Hcur. destruct st as [chs us rs]. simpl in *. f_equal.
      destruct (JsMap.get us sid) as [user|] eqn:E; [|reflexivity].
      apply set_same. rewrite E. f_equal.
      specialize (Hcur user eq_refl). destruct user; simpl in *. now subst.
  - intros channel Hch Habsent Hne. unfold leave_channel. rewrite Hch.
    rewrite (delete_absent _ _ Habsent). cbn [c_users].
    destruct (JsMap.size (c_users channel) =? 0) eqn:Esz.
    + apply size_zero_iff in Esz. contradiction.
    + simpl. repeat split.
      * apply set_same. rewrite Hch. now destruct channel.
      * intros k Hk. now apply Hothers.
Qed.

Lemma leave_not_joined_witness :
  (snd (leave_channel two_rooms "B" (msg "nowhere" (VStr "userB"))) = [] /\
   channels (fst (leave_channel two_rooms "B" (msg "nowhere" (VStr "userB"))))
     = channels two_rooms) /\
  (snd (leave_channel two_rooms "A" (msg "room2" (VStr "userA")))
     = [EmitRoomExcept "room2" "A" (UserLeft (VStr "userA"))] /\
   channels (fst (leave_channel two_rooms "A" (msg "room2" (VStr "userA"))))
     = channels two_rooms).
Proof.
  split.
  - destruct (leave_not_joined two_rooms "B" (msg "nowhere" (VStr "userB")))
      as [Hunknown _].
    destruct (Hunknown eq_refl) as (Hout & Hchs & _). now split.
  - destruct (leave_not_joined two_rooms "A" (msg "room2" (VStr "userA")))
      as [_ Hother].
    assert (Hne : c_users (mkChannel "room2" [("B", mkMember (VStr "userB") "B" 4)] 4 0)
                  <> []) by (intro H; discriminate H).
    destruct (Hother (mkChannel "room2" [("B", mkMember (VStr "userB") "B" 4)] 4 0)
                eq_refl eq_refl Hne) as (Hout & Hchs & _).
    now split.
Defined.

(** * Delivery through rooms *)

Lemma existsb_filter_ne (s sender : string) (l : list string) :
  existsb (String.eqb s) (filter (fun x => negb (String.eqb x sender)) l)
  = existsb (String.eqb s) l && negb (String.eqb s sender).
Proof.
  induction l as [|x r IH]; simpl; [reflexivity|].
  destruct (String.eqb x sender) eqn:Ex; simpl.
  - rewrite IH. destruct (String.eqb s x) eqn:Es; simpl; [|reflexivity].
    apply String.eqb_eq in Es. subst x. rewrite Ex. simpl.
    now rewrite andb_false_r.
  - rewrite IH. destruct (String.eqb s x) eqn:Es; simpl; [|reflexivity].
    apply String.eqb_eq in Es. subst x. now rewrite Ex.
Qed.

(** A broadcast [socket.to(room).emit(e)] reaches the sockets bound to the
    room other than the sender, once each. *)
Lemma received_room_except (rs : Rooms) (s room sender : string) (e : event) :
  received rs s [EmitRoomExcept room sender e]
  = if in_room rs room s && negb (String.eqb s sender) then [e] else [].
Proof.
  unfold received, in_room. simpl. rewrite existsb_filter_ne.
  now destruct (existsb (String.eqb s) (room_sockets rs room) && negb (String.eqb s sender)).
Qed.

(** [io.to(room).emit(e)] reaches the sockets bound to the room. *)
Lemma received_room (rs : Rooms) (s room : string) (e : event) :
  received rs s [EmitRoom room e] = if in_room rs room s then [e] else [].
Proof.
  unfold received, in_room. simpl.
  now destruct (existsb (String.eqb s) (room_sockets rs room)).
Qed.

Lemma received_self (rs : Rooms) (s sid : string) (e : event) :
  received rs s [EmitSelf sid e] = if String.eqb s sid then [e] else [].
Proof.
  unfold received. simpl. rewrite orb_false_r.
  now destruct (String.eqb s sid).
Qed.

Lemma received_cons (rs : Rooms) (s : string) (a : emission) (out : list emission) :
  received rs s (a :: out) = (received rs s [a] ++ received rs s out)%list.
Proof.
  unfold received. simpl.
  now destruct (existsb (String.eqb s) (recipients rs a)).
Qed.

(** * Signalling: destinations that resolve to nobody *)

Lemma findSocketIdByUserId_none (us : JsMap.t User) (t : value) :
  (forall k user, In (k, user) us -> u_userId user <> t) ->
  GlobalAddr.findSocketIdByUserId us t = None.
Proof.
  induction us as [|[k user] r IH]; simpl; intros H; [reflexivity|].
  destruct (value_eqb (u_userId user) t) eqn:E.
  - apply value_eqb_eq in E. exfalso. apply (H k user); [now left | assumption].
  - apply IH. intros k' u' Hin. apply (H k' u'). now right.
Qed.

Lemma find_none (l : list Member) (t : value) :
  (forall m, In m l -> m_userId m <> t) ->
  JsMap.find (fun u => value_eqb (m_userId u) t) l = None.
Proof.
  induction l as [|x r IH]; simpl; intros H; [reflexivity|].
  destruct (value_eqb (m_userId x) t) eqn:E.
  - apply value_eqb_eq in E. exfalso. apply (H x); [now left | assumption].
  - apply IH. intros m Hin. apply H. now right.
Qed.

(** No registered connection carries [to]: the three global relays drop. *)
Lemma global_relay_dropped (st : State) (sid : string) (p : Payload) :
  (forall k user, In (k, user) (users st) -> u_userId user <> to p) ->
  GlobalAddr.webrtc_offer st sid p = (st, []) /\
  GlobalAddr.webrtc_answer st sid p = (st, []) /\
  GlobalAddr.ice_candidate st sid p = (st, []).
Proof.
  intros H. apply findSocketIdByUserId_none in H.
  unfold GlobalAddr.webrtc_offer, GlobalAddr.webrtc_answer, GlobalAddr.ice_candidate.
  rewrite H. repeat split.
Qed.

(** No member of the named channel carries [targetUserId]: the two
    targeted channel-scoped relays drop. *)
Lemma scoped_relay_dropped (st : State) (sid : string) (p : Payload) :
  (forall m, In m (JsMap.values (members st (channelId p))) ->
             m_userId m <> targetUserId p) ->
  ChannelScoped.webrtc_answer st sid p = (st, []) /\
  (truthy (targetUserId p) = true ->
   ChannelScoped.webrtc_ice_candidate st sid p = (st, [])).
Proof.
  intros H. unfold members in H.
  unfold ChannelScoped.webrtc_answer, ChannelScoped.webrtc_ice_candidate,
    ChannelScoped.find_target.
  destruct (JsMap.get (channels st) (channelId p)) as [channel|].
  - rewrite (find_none _ _ H). split; [reflexivity|]. now intros ->.
  - split; [reflexivity|]. now intros ->.
Qed.

(** C6, counterexample.  In the channel-scoped iteration A, in room1 with B
    and C, sends a [webrtc-offer] whose [targetUserId] is "nobody", an
    identity that no member of room1 carries: the offer is not dropped, it
    is broadcast and B receives it.  The same happens to a
    [webrtc-ice-candidate] whose [targetUserId] is the empty string, which
    no member carries either: the falsy value takes the broadcast branch. *)
Lemma scoped_offer_to_nobody_is_broadcast :
  (JsMap.find (fun u => value_eqb (m_userId u) (VStr "nobody"))
     (JsMap.values (members three_in_room1 "room1")) = None /\
   ChannelScoped.webrtc_offer three_in_room1 "A"
     (signal "room1" (VStr "userA") (VStr "nobody") "sdp")
     = (three_in_room1,
        [EmitRoomExcept "room1" "A" (WebrtcOffer (VStr "userA") "sdp")]) /\
   delivered (ChannelScoped.webrtc_offer three_in_room1 "A"
                (signal "room1" (VStr "userA") (VStr "nobody") "sdp")) "B"
     = [WebrtcOffer (VStr "userA") "sdp"]) /\
  (JsMap.find (fun u => value_eqb (m_userId u) (VStr ""))
     (JsMap.values (members three_in_room1 "room1")) = None /\
   ChannelScoped.webrtc_ice_candidate three_in_room1 "A"
     (signal "room1" (VStr "userA") (VStr "") "cand")
     = (three_in_room1,
        [EmitRoomExcept "room1" "A" (WebrtcIceCandidate (VStr "userA") "cand")]) /\
   delivered (ChannelScoped.webrtc_ice_candidate three_in_room1 "A"
                (signal "room1" (VStr "userA") (VStr "") "cand")) "B"
     = [WebrtcIceCandidate (VStr "userA") "cand"]).
Proof. repeat split; reflexivity. Qed.

(** C6, amended.  The relays that resolve a destination identity drop the
    payload when the identity matches nobody: the handler emits nothing, so
    no socket (the sender included) receives anything, it returns normally
    and it leaves the state as it was.  These relays are, in the globally
    addressed iteration, [webrtc-offer], [webrtc-answer] and
    [ice-candidate], when no registered connection carries the identity
    [to]; and, in the channel-scoped iteration, [webrtc-answer], and
    [webrtc-ice-candidate] with a truthy [targetUserId], when the named
    channel is unknown or none of its members carries [targetUserId].
    The other two channel-scoped relays resolve no destination and are
    never dropped: [webrtc-offer], whatever [targetUserId] says, and
    [webrtc-ice-candidate] with an absent or falsy [targetUserId] are
    broadcast to the channel's room minus the sender. *)
Theorem unresolved_destination_dropped (st : State) (sid : string) (p : Payload) :
  ((forall k user, In (k, user) (users st) -> u_userId user <> to p) ->
     (GlobalAddr.webrtc_offer st sid p = (st, []) /\
      GlobalAddr.webrtc_answer st sid p = (st, []) /\
      GlobalAddr.ice_candidate st sid p = (st, [])) /\
     forall s,
       delivered (GlobalAddr.webrtc_offer st sid p) s = [] /\
       delivered (GlobalAddr.webrtc_answer st sid p) s = [] /\
       delivered (GlobalAddr.ice_candidate st sid p) s = []) /\
  ((forall m, In m (JsMap.values (members st (channelId p))) ->
              m_userId m <> targetUserId p) ->
     ChannelScoped.webrtc_answer st sid p = (st, []) /\
     (forall s, delivered (ChannelScoped.webrtc_answer st sid p) s = []) /\
     (truthy (targetUserId p) = true ->
      ChannelScoped.webrtc_ice_candidate st sid p = (st, []) /\
      forall s, delivered (ChannelScoped.webrtc_ice_candidate st sid p) s = [])) /\
  (ChannelScoped.webrtc_offer st sid p
     = (st, [EmitRoomExcept (channelId p) sid (WebrtcOffer (userId p) (body p))]) /\
   (truthy (targetUserId p) = false ->
    ChannelScoped.webrtc_ice_candidate st sid p
      = (st, [EmitRoomExcept (channelId p) sid
                (WebrtcIceCandidate (userId p) (body p))]))).
Proof.
  split; [|split].
  - intros H. destruct (global_relay_dropped st sid p H) as (Ho & Ha & Hi).
    split; [now repeat split|]. intros s. rewrite Ho, Ha, Hi. now repeat split.
  - intros H. destruct (scoped_relay_dropped st sid p H) as [Ha Hi].
    split; [assumption|]. split.
    + intros s. now rewrite Ha.
    + intros Ht. rewrite (Hi Ht). now split.
  - split; [reflexivity|]. intros Hf.
    unfold ChannelScoped.webrtc_ice_candidate. now rewrite Hf.
Qed.

Lemma unresolved_destination_dropped_witness :
  (GlobalAddr.webrtc_offer two_rooms "A" (signal "room1" (VStr "userA") (VStr "nobody") "sdp")
     = (two_rooms, []) /\
   GlobalAddr.webrtc_answer two_rooms "A" (signal "room1" (VStr "userA") (VStr "nobody") "sdp")
     = (two_rooms, []) /\
   GlobalAddr.ice_candidate two_rooms "A" (signal "room1" (VStr "userA") (VStr "nobody") "sdp")
     = (two_rooms, [])) /\
  (ChannelScoped.webrtc_answer two_rooms "A"
     (signal "room1" (VStr "userA") (VStr "nobody") "sdp") = (two_rooms, []) /\
   ChannelScoped.webrtc_ice_candidate two_rooms "A"
     (signal "room1" (VStr "userA") (VStr "nobody") "sdp") = (two_rooms, [])) /\
  ChannelScoped.webrtc_ice_candidate two_rooms "A"
    (signal "room1" (VStr "userA") VUndefined "cand")
    = (two_rooms,
       [EmitRoomExcept "room1" "A" (WebrtcIceCandidate (VStr "userA") "cand")]).
Proof.
  destruct (unresolved_destination_dropped two_rooms "A"
              (signal "room1" (VStr "userA") (VStr "nobody") "sdp")) as (Hg & Hc & _).
  split; [|split].
  - apply Hg. simpl. intros k user [H | [H | []]]; inversion H; subst; discriminate.
  - destruct Hc as (Hans & _ & Hice).
    + simpl. intros m [H | []]. subst m. discriminate.
    + split; [exact Hans | exact (proj1 (Hice eq_refl))].
  - destruct (unresolved_destination_dropped two_rooms "A"
                (signal "room1" (VStr "userA") VUndefined "cand")) as (_ & _ & _ & Hb).
    exact (Hb eq_refl).
Defined.

(** * Channel-scoped addressing *)

Lemma find_first (l : list Member) (t : value) (m : Member) :
  first_with_userId l t m ->
  JsMap.find (fun u => value_eqb (m_userId u) t) l = Some m.
Proof.
  intros (l1 & l2 & -> & Hm & Hbefore).
  induction l1 as [|x r IH]; simpl.
  - subst t. now rewrite value_eqb_refl.
  - destruct (value_eqb (m_userId x) t) eqn:E.
    + apply value_eqb_eq in E. exfalso. apply (Hbefore x); [now left | assumption].
    + apply IH. intros y Hy. apply Hbefore. now right.
Qed.

Lemma find_some_first (l : list Member) (t : value) (m : Member) :
  JsMap.find (fun u => value_eqb (m_userId u) t) l = Some m ->
  first_with_userId l t m.
Proof.
  induction l as [|x r IH]; simpl; [discriminate|].
  destruct (value_eqb (m_userId x) t) eqn:E.
  - intros H. inversion H. subst x. apply value_eqb_eq in E.
    exists [], r. repeat split; [assumption | intros y []].
  - intros H. destruct (IH H) as (l1 & l2 & -> & Hm & Hbefore).
    exists (x :: l1), l2. repeat split; [assumption|].
    intros y [-> | Hy]; [| now apply Hbefore].
    intro Heq. apply value_eqb_eq in Heq. congruence.
Qed.

(** C7, counterexample.  (1) A sends a [webrtc-offer] with
    [targetUserId = userB]: the offer is broadcast, and C, who is not the
    target, receives it.  (2) A sends a [webrtc-answer] without
    [targetUserId]: nothing is emitted, B and C receive nothing. *)
Lemma offer_ignores_target_answer_never_broadcasts :
  (ChannelScoped.webrtc_offer three_in_room1 "A"
     (signal "room1" (VStr "userA") (VStr "userB") "sdp")
     = (three_in_room1,
        [EmitRoomExcept "room1" "A" (WebrtcOffer (VStr "userA") "sdp")]) /\
   delivered (ChannelScoped.webrtc_offer three_in_room1 "A"
                (signal "room1" (VStr "userA") (VStr "userB") "sdp")) "C"
     = [WebrtcOffer (VStr "userA") "sdp"]) /\
  (ChannelScoped.webrtc_answer three_in_room1 "A"
     (signal "room1" (VStr "userA") VUndefined "sdp") = (three_in_room1, []) /\
   delivered (ChannelScoped.webrtc_answer three_in_room1 "A"
                (signal "room1" (VStr "userA") VUndefined "sdp")) "B" = [] /\
   delivered (ChannelScoped.webrtc_answer three_in_room1 "A"
                (signal "room1" (VStr "userA") VUndefined "sdp")) "C" = []).
Proof. repeat split; reflexivity. Qed.

(** C7, amended.  In the channel-scoped iteration the three payload kinds
    are addressed differently.
    - [webrtc-offer] is always broadcast to the channel's room minus the
      sender, whatever [targetUserId] says.
    - [webrtc-answer] is always targeted, never broadcast: the channel's
      member map is scanned in enumeration order for a member whose
      [userId] strictly equals [targetUserId]; an absent [targetUserId]
      reads [undefined] and is matched like any other value.  The answer is
      emitted once to the room named by the socket id of the first member
      found ([io.to(socketId)]), and is dropped when the channel is unknown
      or no member matches.
    - [webrtc-ice-candidate] is broadcast like the offer when [targetUserId]
      is falsy and targeted like the answer when it is truthy.
    A broadcast reaches every socket bound to the channel's room other
    than the sender exactly once and no other socket.  A targeted emission
    reaches every socket bound to the room named by the target's socket id
    exactly once and no other socket; that is the target's connection and
    no one else exactly when that room holds the target's socket alone.
    The state never changes. *)
Theorem channel_scoped_addressing (st : State) (sid : string) (p : Payload) :
  (* offer *)
  (ChannelScoped.webrtc_offer st sid p
     = (st, [EmitRoomExcept (channelId p) sid (WebrtcOffer (userId p) (body p))]) /\
   forall s, delivered (ChannelScoped.webrtc_offer st sid p) s
             = if in_room (rooms st) (channelId p) s && negb (String.eqb s sid)
               then [WebrtcOffer (userId p) (body p)] else []) /\
  (* answer *)
  ((forall m, first_with_userId (JsMap.values (members st (channelId p))) (targetUserId p) m ->
      ChannelScoped.webrtc_answer st sid p
        = (st, [EmitRoom (m_socketId m) (WebrtcAnswer (userId p) (body p))]) /\
      (forall s, delivered (ChannelScoped.webrtc_answer st sid p) s
                 = if in_room (rooms st) (m_socketId m) s
                   then [WebrtcAnswer (userId p) (body p)] else []) /\
      (room_sockets (rooms st) (m_socketId m) = [m_socketId m] ->
       forall s, delivered (ChannelScoped.webrtc_answer st sid p) s
                 = if String.eqb s (m_socketId m)
                   then [WebrtcAnswer (userId p) (body p)] else [])) /\
   ((forall m, In m (JsMap.values (members st (channelId p))) ->
               m_userId m <> targetUserId p) ->
      ChannelScoped.webrtc_answer st sid p = (st, []))) /\
  (* ICE candidate *)
  ((truthy (targetUserId p) = false ->
      ChannelScoped.webrtc_ice_candidate st sid p
        = (st, [EmitRoomExcept (channelId p) sid (WebrtcIceCandidate (userId p) (body p))]) /\
      forall s, delivered (ChannelScoped.webrtc_ice_candidate st sid p) s
                = if in_room (rooms st) (channelId p) s && negb (String.eqb s sid)
                  then [WebrtcIceCandidate (userId p) (body p)] else []) /\
   (truthy (targetUserId p) = true ->
      (forall m, first_with_userId (JsMap.values (members st (channelId p))) (targetUserId p) m ->
         ChannelScoped.webrtc_ice_candidate st sid p
           = (st, [EmitRoom (m_socketId m) (WebrtcIceCandidate (userId p) (body p))]) /\
         (forall s, delivered (ChannelScoped.webrtc_ice_candidate st sid p) s
                    = if in_room (rooms st) (m_socketId m) s
                      then [WebrtcIceCandidate (userId p) (body p)] else []) /\
         (room_sockets (rooms st) (m_socketId m) = [m_socketId m] ->
          forall s, delivered (ChannelScoped.webrtc_ice_candidate st sid p) s
                    = if String.eqb s (m_socketId m)
                      then [WebrtcIceCandidate (userId p) (body p)] else [])) /\
      ((forall m, In m (JsMap.values (members st (channelId p))) ->
                  m_userId m <> targetUserId p) ->
         ChannelScoped.webrtc_ice_candidate st sid p = (st, [])))).
Proof.
  assert (Hfound : forall m,
            first_with_userId (JsMap.values (members st (channelId p))) (targetUserId p) m ->
            exists channel,
              JsMap.get (channels st) (channelId p) = Some channel /\
              ChannelScoped.find_target channel (targetUserId p) = Some m).
  { intros m Hm. unfold members in Hm.
    destruct (JsMap.get (channels st) (channelId p)) as [channel|].
    - exists channel. split; [reflexivity|]. now apply find_first.
    - destruct Hm as (l1 & l2 & Hnil & _). destruct l1; discriminate Hnil. }
  assert (Hone : forall s t e,
            room_sockets (rooms st) t = [t] ->
            received (rooms st) s [EmitRoom t e] = if String.eqb s t then [e] else []).
  { intros s t e Hroom. rewrite received_room. unfold in_room. rewrite Hroom.
    simpl. now rewrite orb_false_r. }
  split; [|split].
  - split; [reflexivity|]. intros s. unfold delivered. simpl.
    apply received_room_except.
  - split.
    + intros m Hm. destruct (Hfound m Hm) as (channel & Hch & Hfind).
      unfold ChannelScoped.webrtc_answer. rewrite Hch, Hfind.
      split; [reflexivity|]. split.
      * intros s. unfold delivered. simpl. apply received_room.
      * intros Hroom s. unfold delivered. simpl. now apply Hone.
    + intros Hnone.
      exact (proj1 (scoped_relay_dropped st sid p Hnone)).
  - split.
    + intros Hfalsy. unfold ChannelScoped.webrtc_ice_candidate. rewrite Hfalsy.
      split; [reflexivity|]. intros s. unfold delivered. simpl.
      apply received_room_except.
    + intros Htruthy. split.
      * intros m Hm. destruct (Hfound m Hm) as (channel & Hch & Hfind).
        unfold ChannelScoped.webrtc_ice_candidate. rewrite Htruthy, Hch, Hfind.
        split; [reflexivity|]. split.
        -- intros s. unfold delivered. simpl. apply received_room.
        -- intros Hroom s. unfold delivered. simpl. now apply Hone.
      * intros Hnone.
        exact (proj2 (scoped_relay_dropped st sid p Hnone) Htruthy).
Qed.

(** A connection that joined a channel named after B's socket id is bound
    to B's room, and an answer targeted at userB reaches it as well. *)
Lemma targeted_answer_reaches_the_whole_room :
  let st := ChannelScoped.run three_in_room1
              [ChannelScoped.OnJoinChannel "C" (msg "B" (VStr "userC")) 7] in
  let p := signal "room1" (VStr "userA") (VStr "userB") "sdp" in
  ChannelScoped.webrtc_answer st "A" p
    = (st, [EmitRoom "B" (WebrtcAnswer (VStr "userA") "sdp")]) /\
  delivered (ChannelScoped.webrtc_answer st "A" p) "B" = [WebrtcAnswer (VStr "userA") "sdp"] /\
  delivered (ChannelScoped.webrtc_answer st "A" p) "C" = [WebrtcAnswer (VStr "userA") "sdp"].
Proof. repeat split; reflexivity. Qed.

(** An answer without [targetUserId] is matched against the members'
    identities like any other: it goes to a member that joined without a
    [userId]. *)
Lemma answer_without_target_matches_undefined :
  let st := ChannelScoped.run three_in_room1
              [ChannelScoped.OnConnection "D" 7;
               ChannelScoped.OnJoinChannel "D" (msg "room1" VUndefined) 8] in
  ChannelScoped.webrtc_answer st "A" (signal "room1" (VStr "userA") VUndefined "sdp")
    = (st, [EmitRoom "D" (WebrtcAnswer (VStr "userA") "sdp")]).
Proof. reflexivity. Qed.

Lemma channel_scoped_addressing_witness :
  let p := signal "room1" (VStr "userA") (VStr "userB") "sdp" in
  (ChannelScoped.webrtc_answer three_in_room1 "A" p
     = (three_in_room1, [EmitRoom "B" (WebrtcAnswer (VStr "userA") "sdp")]) /\
   forall s, delivered (ChannelScoped.webrtc_answer three_in_room1 "A" p) s
             = if String.eqb s "B" then [WebrtcAnswer (VStr "userA") "sdp"] else []) /\
  (ChannelScoped.webrtc_ice_candidate three_in_room1 "A" p
     = (three_in_room1, [EmitRoom "B" (WebrtcIceCandidate (VStr "userA") "sdp")]) /\
   forall s, delivered (ChannelScoped.webrtc_ice_candidate three_in_room1 "A" p) s
             = if String.eqb s "B" then [WebrtcIceCandidate (VStr "userA") "sdp"] else []) /\
  (ChannelScoped.webrtc_ice_candidate three_in_room1 "A"
     (signal "room1" (VStr "userA") VUndefined "sdp")
     = (three_in_room1,
        [EmitRoomExcept "room1" "A" (WebrtcIceCandidate (VStr "userA") "sdp")])) /\
  ChannelScoped.webrtc_answer three_in_room1 "A"
    (signal "room1" (VStr "userA") (VStr "nobody") "sdp") = (three_in_room1, []).
Proof.
  intros p.
  assert (Hfirst : first_with_userId
                     (JsMap.values (members three_in_room1 (channelId p)))
                     (targetUserId p) (mkMember (VStr "userB") "B" 5)).
  { exists [mkMember (VStr "userA") "A" 4], [mkMember (VStr "userC") "C" 6].
    split; [reflexivity|]. split; [reflexivity|].
    intros x [<- | []]. discriminate. }
  destruct (channel_scoped_addressing three_in_room1 "A" p)
    as (_ & (Hans & _) & (_ & Hice)).
  destruct (Hans _ Hfirst) as (Ha1 & _ & Ha2).
  destruct (Hice eq_refl) as [Hi _].
  destruct (Hi _ Hfirst) as (Hi1 & _ & Hi2).
  split; [split; [exact Ha1 | exact (Ha2 eq_refl)] |].
  split; [split; [exact Hi1 | exact (Hi2 eq_refl)] |].
  split.
  - destruct (channel_scoped_addressing three_in_room1 "A"
                (signal "room1" (VStr "userA") VUndefined "sdp"))
      as (_ & _ & (Hb & _)).
    exact (proj1 (Hb eq_refl)).
  - destruct (channel_scoped_addressing three_in_room1 "A"
                (signal "room1" (VStr "userA") (VStr "nobody") "sdp"))
      as (_ & (_ & Hdrop) & _).
    apply Hdrop. simpl. intros m [<- | [<- | [<- | []]]]; discriminate.
Defined.

(** * Transmission signals *)

(** C8, counterexample.  B, in room1 with A and C, sends
    [transmission-start] and [transmission-end] with a client timestamp 5
    while the server clock reads 100: what A receives is stamped 100, in
    both iterations; the client's 5 is not preserved. *)
Lemma client_timestamp_not_preserved :
  let p := mkPayload "room1" (VStr "userB") VUndefined VUndefined "" 0 (Some 5) in
  delivered (GlobalAddr.transmission_start three_in_room1 "B" p 100) "A"
    = [TransmissionStart (VStr "userB") 100] /\
  delivered (GlobalAddr.transmission_end three_in_room1 "B" p 100) "A"
    = [TransmissionEnd (VStr "userB") 100] /\
  delivered (ChannelScoped.transmission_start three_in_room1 "B" p 100) "A"
    = [TransmissionStart (VStr "userB") 100] /\
  delivered (ChannelScoped.transmission_end three_in_room1 "B" p 100) "A"
    = [TransmissionEnd (VStr "userB") 100] /\
  delivered (GlobalAddr.transmission_start three_in_room1 "B" p 100) "A"
    <> [TransmissionStart (VStr "userB") 5].
Proof. repeat split; try reflexivity. intro H. discriminate H. Qed.

(** C8, amended.  Every [transmission-start] and [transmission-end] is
    relayed as one broadcast to the channel's room minus the sender that
    carries the payload's [userId] and the server's clock reading; the
    timestamp is always the server's, whatever the inbound payload holds.
    Every socket bound to the room other than the sender receives the
    event exactly once, the sender and all other sockets receive nothing. *)
Theorem transmission_stamped_by_server (st : State) (sid : string) (p : Payload) (now : Z) :
  (snd (GlobalAddr.transmission_start st sid p now)
     = [EmitRoomExcept (channelId p) sid (TransmissionStart (userId p) now)] /\
   snd (ChannelScoped.transmission_start st sid p now)
     = [EmitRoomExcept (channelId p) sid (TransmissionStart (userId p) now)] /\
   snd (GlobalAddr.transmission_end st sid p now)
     = [EmitRoomExcept (channelId p) sid (TransmissionEnd (userId p) now)] /\
   snd (ChannelScoped.transmission_end st sid p now)
     = [EmitRoomExcept (channelId p) sid (TransmissionEnd (userId p) now)]) /\
  forall s,
    let hears := in_room (rooms st) (channelId p) s && negb (String.eqb s sid) in
    delivered (GlobalAddr.transmission_start st sid p now) s
      = (if hears then [TransmissionStart (userId p) now] else []) /\
    delivered (ChannelScoped.transmission_start st sid p now) s
      = (if hears then [TransmissionStart (userId p) now] else []) /\
    delivered (GlobalAddr.transmission_end st sid p now) s
      = (if hears then [TransmissionEnd (userId p) now] else []) /\
    delivered (ChannelScoped.transmission_end st sid p now) s
      = (if hears then [TransmissionEnd (userId p) now] else []).
Proof.
  split; [now repeat split|].
  intros s hears. unfold delivered. simpl.
  repeat split; apply received_room_except.
Qed.

(** The audio relays of the channel-scoped iteration are the handlers
    that keep a client timestamp: [timestamp || Date.now()]. *)
Lemma audio_keeps_client_timestamp (st : State) (sid : string) (p : Payload) (now t : Z) :
  timestamp p = Some t -> t <> 0 ->
  snd (ChannelScoped.audio_data st sid p now)
    = [EmitRoomExcept (channelId p) sid (AudioReceived (userId p) (body p) t)] /\
  snd (ChannelScoped.audio_url st sid p now)
    = [EmitRoomExcept (channelId p) sid (AudioMessage (userId p) (body p) t)].
Proof.
  intros Ht Hnz. unfold ChannelScoped.audio_data, ChannelScoped.audio_url. simpl.
  rewrite Ht. simpl. apply Z.eqb_neq in Hnz. rewrite Hnz. now split.
Qed.

(** * Which identity a [user-left] carries *)

(** C10. An explicit [leave-channel] of an existing channel broadcasts
    [user-left] with the [userId] of the payload, whatever the registry
    holds for the caller; so a connection can announce the departure of an
    identity that is not its own (B, registered as userB, makes A and C
    receive [user-left] for "mallory").  The [disconnect] path announces
    the [userId] stored in the registry. *)
Theorem leave_announces_payload_userId :
  (forall st sid p channel,
     JsMap.get (channels st) (channelId p) = Some channel ->
     snd (leave_channel st sid p)
       = [EmitRoomExcept (channelId p) sid (UserLeft (userId p))]) /\
  (option_map u_userId (JsMap.get (users three_in_room1) "B") = Some (VStr "userB") /\
   delivered (leave_channel three_in_room1 "B" (msg "room1" (VStr "mallory"))) "A"
     = [UserLeft (VStr "mallory")] /\
   delivered (leave_channel three_in_room1 "B" (msg "room1" (VStr "mallory"))) "C"
     = [UserLeft (VStr "mallory")]) /\
  (forall st sid user c channel,
     JsMap.get (users st) sid = Some user ->
     u_currentChannel user = Some c ->
     truthy_str c = true ->
     JsMap.get (channels st) c = Some channel ->
     snd (disconnect st sid)
       = [EmitRoomExcept c sid (UserLeft (u_userId user))]).
Proof.
  split; [|split].
  - intros st sid p channel Hch. unfold leave_channel. rewrite Hch. cbn [c_users].
    now destruct (JsMap.size (JsMap.delete (c_users channel) sid) =? 0).
  - repeat split; reflexivity.
  - intros st sid user c channel Hu Hc Ht Hch.
    unfold disconnect, on_disconnect. cbn [users channels rooms].
    rewrite Hu, Hc. cbn [truthy_channel]. rewrite Ht, Hch. cbn [c_users].
    now destruct (JsMap.size (JsMap.delete (c_users channel) sid) =? 0).
Qed.

Lemma leave_announces_payload_userId_witness :
  snd (leave_channel three_in_room1 "B" (msg "room1" (VStr "mallory")))
    = [EmitRoomExcept "room1" "B" (UserLeft (VStr "mallory"))] /\
  snd (disconnect three_in_room1 "B")
    = [EmitRoomExcept "room1" "B" (UserLeft (VStr "userB"))].
Proof.
  destruct leave_announces_payload_userId as (Hleave & _ & Hdisc).
  split.
  - exact (Hleave three_in_room1 "B" (msg "room1" (VStr "mallory"))
             (mkChannel "room1"
                [("A", mkMember (VStr "userA") "A" 4);
                 ("B", mkMember (VStr "userB") "B" 5);
                 ("C", mkMember (VStr "userC") "C" 6)] 4 0) eq_refl).
  - exact (Hdisc three_in_room1 "B" (mkUser "B" 2 (Some "room1") (VStr "userB")) "room1"
             (mkChannel "room1"
                [("A", mkMember (VStr "userA") "A" 4);
                 ("B", mkMember (VStr "userB") "B" 5);
                 ("C", mkMember (VStr "userC") "C" 6)] 4 0)
             eq_refl eq_refl eq_refl eq_refl).
Defined.

(** * Invariants of the reachable states *)

Section JsMapIn.
Context {V : Type}.
Implicit Types (m : JsMap.t V) (k : string) (v : V).

Lemma In_set m k v k0 v0 :
  In (k0, v0) (JsMap.set m k v) -> (k0 = k /\ v0 = v) \/ In (k0, v0) m.
Proof.
  induction m as [|[k' v'] r IH]; simpl.
  - intros [H | []]. inversion H. now left.
  - destruct (String.eqb k' k) eqn:E; simpl.
    + intros [H | H]; [inversion H; now left | now right; right].
    + intros [H | H]; [now right; left |].
      destruct (IH H) as [Heq | Hin]; [now left | now right; right].
Qed.

Lemma In_delete m k k0 v0 :
  In (k0, v0) (JsMap.delete m k) -> In (k0, v0) m /\ k0 <> k.
Proof.
  induction m as [|[k' v'] r IH]; simpl; [tauto|].
  destruct (String.eqb k' k) eqn:E; simpl.
  - intros H. destruct (IH H). split; [now right | assumption].
  - intros [H | H].
    + inversion H. subst. split; [now left|].
      intros ->. now rewrite String.eqb_refl in E.
    + destruct (IH H). split; [now right | assumption].
Qed.

Lemma get_filter_keep (f : string * V -> bool) m k v :
  JsMap.get m k = Some v -> f (k, v) = true -> JsMap.get (filter f m) k = Some v.
Proof.
  induction m as [|[k' v'] r IH]; simpl; [discriminate|].
  destruct (String.eqb k' k) eqn:E.
  - apply String.eqb_eq in E. subst k'. intros H Hf. inversion H. subst v'.
    rewrite Hf. simpl. now rewrite String.eqb_refl.
  - intros H Hf. destruct (f (k', v')); simpl; [rewrite E|]; now apply IH.
Qed.
End JsMapIn.

Lemma leave_channel_channels (st : State) (sid : string) (p : Payload) :
  channels (fst (leave_channel st sid p)) = remove_member (channels st) (channelId p) sid.
Proof.
  unfold leave_channel, remove_member.
  destruct (JsMap.get (channels st) (channelId p)) as [channel|]; [|reflexivity].
  cbn [c_users].
  now destruct (JsMap.size (JsMap.delete (c_users channel) sid) =? 0).
Qed.

Lemma leave_channel_users (st : State) (sid : string) (p : Payload) :
  users (fst (leave_channel st sid p))
  = match JsMap.get (users st) sid with
    | Some user =>
        JsMap.set (users st) sid
          (mkUser (u_socketId user) (u_connectedAt user) None (u_userId user))
    | None => users st
    end.
Proof.
  unfold leave_channel.
  destruct (JsMap.get (channels st) (channelId p)) as [channel|]; [|reflexivity].
  cbn [c_users].
  now destruct (JsMap.size (JsMap.delete (c_users channel) sid) =? 0).
Qed.

Lemma on_disconnect_channels (st : State) (sid : string) :
  channels (fst (on_disconnect st sid))
  = match JsMap.get (users st) sid with
    | Some user =>
        match u_currentChannel user with
        | Some c => if truthy_str c then remove_member (channels st) c sid else channels st
        | None => channels st
        end
    | None => channels st
    end.
Proof.
  unfold on_disconnect, remove_member.
  destruct (JsMap.get (users st) sid) as [user|]; [|reflexivity].
  destruct (u_currentChannel user) as [c|]; [|reflexivity].
  cbn [truthy_channel]. destruct (truthy_str c); [|reflexivity].
  destruct (JsMap.get (channels st) c) as [channel|]; [|reflexivity].
  cbn [c_users].
  now destruct (JsMap.size (JsMap.delete (c_users channel) sid) =? 0).
Qed.

Lemma on_disconnect_users (st : State) (sid : string) :
  users (fst (on_disconnect st sid)) = JsMap.delete (users st) sid.
Proof.
  unfold on_disconnect.
  destruct (JsMap.get (users st) sid) as [user|]; [|reflexivity].
  destruct (truthy_channel (u_currentChannel user)); [|reflexivity].
  destruct (u_currentChannel user) as [c|]; [|reflexivity].
  destruct (JsMap.get (channels st) c) as [channel|]; [|reflexivity].
  cbn [c_users].
  now destruct (JsMap.size (JsMap.delete (c_users channel) sid) =? 0).
Qed.

Lemma is_member_iff (st : State) (c k : string) :
  is_member st c k = true <->
  exists channel,
    JsMap.get (channels st) c = Some channel /\ JsMap.get (c_users channel) k <> None.
Proof.
  unfold is_member, members. rewrite has_true_iff.
  destruct (JsMap.get (channels st) c) as [channel|]; simpl; split.
  - intros H. now exists channel.
  - intros (ch & Heq & H). inversion Heq. now subst.
  - congruence.
  - intros (ch & Heq & _). discriminate.
Qed.

Lemma rm_get_other (chs : JsMap.t Channel) (c sid c' : string) :
  c' <> c -> JsMap.get (remove_member chs c sid) c' = JsMap.get chs c'.
Proof.
  intros Hne. unfold remove_member.
  destruct (JsMap.get chs c) as [channel|]; [|reflexivity].
  cbn [c_users].
  destruct (JsMap.size (JsMap.delete (c_users channel) sid) =? 0).
  - rewrite get_delete_ne by congruence. apply get_set_ne. congruence.
  - apply get_set_ne. congruence.
Qed.

Lemma rm_member_kept (chs : JsMap.t Channel) (c sid c' k : string) (ch : Channel) :
  k <> sid ->
  JsMap.get chs c' = Some ch -> JsMap.get (c_users ch) k <> None ->
  exists ch', JsMap.get (remove_member chs c sid) c' = Some ch' /\
              JsMap.get (c_users ch') k <> None.
Proof.
  intros Hk Hch Hmem.
  destruct (string_dec c' c) as [-> | Hne].
  - unfold remove_member. rewrite Hch. cbn [c_users].
    assert (Hkept : JsMap.get (JsMap.delete (c_users ch) sid) k <> None).
    { rewrite get_delete_ne by congruence. assumption. }
    destruct (JsMap.size (JsMap.delete (c_users ch) sid) =? 0) eqn:Esz.
    + apply size_zero_iff in Esz. rewrite Esz in Hkept. now elim Hkept.
    + eexists. split; [apply get_set_eq | exact Hkept].
  - exists ch. rewrite rm_get_other by assumption. now split.
Qed.

Lemma rm_In (chs : JsMap.t Channel) (c sid c' : string) (ch' : Channel) :
  In (c', ch') (remove_member chs c sid) ->
  In (c', ch') chs \/
  exists ch, In (c', ch) chs /\
             c_users ch' = JsMap.delete (c_users ch) sid /\ c_users ch' <> [].
Proof.
  unfold remove_member.
  destruct (JsMap.get chs c) as [channel|] eqn:Hch; [|now left].
  cbn [c_users].
  destruct (JsMap.size (JsMap.delete (c_users channel) sid) =? 0) eqn:Esz.
  - intros H. apply In_delete in H. destruct H as [H Hne].
    apply In_set in H. destruct H as [[Heq _] | H]; [contradiction | now left].
  - intros H. apply In_set in H. destruct H as [[-> ->] | H]; [|now left].
    right. exists channel. split; [now apply get_Some_In|]. split; [reflexivity|].
    simpl. intros Hnil. rewrite Hnil in Esz. discriminate.
Qed.

(** A step that keeps the registry records of the connections holding a
    current channel, keeps their memberships, and only shrinks member maps
    preserves the invariant. *)
Lemma Inv_update (st : State) (P : string -> Prop)
      (chs' : JsMap.t Channel) (us' : JsMap.t User) (rs' : Rooms) :
  Inv st ->
  (forall sid user c,
     JsMap.get us' sid = Some user -> u_currentChannel user = Some c ->
     JsMap.get (users st) sid = Some user /\ P sid) ->
  (forall c k ch,
     P k -> JsMap.get (channels st) c = Some ch -> JsMap.get (c_users ch) k <> None ->
     exists ch', JsMap.get chs' c = Some ch' /\ JsMap.get (c_users ch') k <> None) ->
  (forall c ch',
     In (c, ch') chs' ->
     c_users ch' <> [] /\
     forall k m, In (k, m) (c_users ch') ->
                 exists ch, In (c, ch) (channels st) /\ In (k, m) (c_users ch)) ->
  Inv (mkState chs' us' rs').
Proof.
  intros [Hcur Hkey Hne] Hus Hkeep Hshrink. constructor; simpl.
  - intros sid user c Hget Hc. destruct (Hus sid user c Hget Hc) as [Hold HP].
    apply is_member_iff. simpl.
    pose proof (Hcur sid user c Hold Hc) as Hm0. apply is_member_iff in Hm0.
    destruct Hm0 as (ch & Hch & Hmem). now apply (Hkeep c sid ch).
  - intros c ch' k m Hin Hm. destruct (Hshrink c ch' Hin) as [_ Hsub].
    destruct (Hsub k m Hm) as (ch & Hch & Hkm). now apply (Hkey c ch).
  - intros c ch' Hin. now destruct (Hshrink c ch' Hin).
Qed.

Lemma Inv_init : Inv init.
Proof. constructor; simpl; intros; try discriminate; contradiction. Qed.

Lemma connection_Inv (st : State) (sid : string) (now : Z) :
  Inv st -> Inv (fst (connection st sid now)).
Proof.
  intros HI. unfold connection. simpl.
  apply Inv_update with (st := st) (P := fun _ => True); [assumption| | |].
  - intros sid' user c Hget Hc. split; [|exact I].
    destruct (string_dec sid sid') as [-> | Hne].
    + rewrite get_set_eq in Hget. inversion Hget. subst user. discriminate.
    + now rewrite get_set_ne in Hget.
  - intros c k ch _ Hch Hmem. now exists ch.
  - intros c ch' Hin. split; [now apply (inv_nonempty st HI c)|].
    intros k m Hm. now exists ch'.
Qed.

Lemma remove_member_Inv (st : State) (sid c : string) (us' : JsMap.t User) (rs' : Rooms) :
  Inv st ->
  (forall k user c',
     JsMap.get us' k = Some user -> u_currentChannel user = Some c' ->
     JsMap.get (users st) k = Some user /\ k <> sid) ->
  Inv (mkState (remove_member (channels st) c sid) us' rs').
Proof.
  intros HI Hus.
  apply Inv_update with (st := st) (P := fun k => k <> sid); [assumption|assumption| |].
  - intros c' k ch Hk Hch Hmem. now apply rm_member_kept with (ch := ch).
  - intros c' ch' Hin. destruct (rm_In _ _ _ _ _ Hin) as [Hold | (ch & Hch & Heq & Hne)].
    + split; [now apply (inv_nonempty st HI c')|]. intros k m Hm. now exists ch'.
    + split; [assumption|]. intros k m Hm. exists ch. split; [assumption|].
      rewrite Heq in Hm. now apply In_delete in Hm.
Qed.

Lemma unchanged_channels_Inv (st : State) (sid : string) (us' : JsMap.t User) (rs' : Rooms) :
  Inv st ->
  (forall k user c',
     JsMap.get us' k = Some user -> u_currentChannel user = Some c' ->
     JsMap.get (users st) k = Some user /\ k <> sid) ->
  Inv (mkState (channels st) us' rs').
Proof.
  intros HI Hus.
  apply Inv_update with (st := st) (P := fun k => k <> sid); [assumption|assumption| |].
  - intros c' k ch _ Hch Hmem. now exists ch.
  - intros c' ch' Hin. split; [now apply (inv_nonempty st HI c')|].
    intros k m Hm. now exists ch'.
Qed.

Lemma leave_channel_Inv (st : State) (sid : string) (p : Payload) :
  Inv st -> Inv (fst (leave_channel st sid p)).
Proof.
  intros HI.
  destruct (fst (leave_channel st sid p)) as [chs' us' rs'] eqn:E.
  assert (Hc : chs' = remove_member (channels st) (channelId p) sid).
  { rewrite <- leave_channel_channels. now rewrite E. }
  assert (Hu : us' = users (fst (leave_channel st sid p))) by now rewrite E.
  rewrite leave_channel_users in Hu. subst chs'.
  apply remove_member_Inv; [assumption|].
  intros k user c' Hget Hcur. subst us'.
  destruct (string_dec sid k) as [-> | Hne].
  - exfalso. destruct (JsMap.get (users st) k) as [u0|] eqn:Eu.
    + rewrite get_set_eq in Hget. inversion Hget. subst user. discriminate.
    + congruence.
  - split; [|congruence].
    destruct (JsMap.get (users st) sid); [now rewrite get_set_ne in Hget | assumption].
Qed.

Lemma on_disconnect_Inv (st : State) (sid : string) :
  Inv st -> Inv (fst (on_disconnect st sid)).
Proof.
  intros HI.
  destruct (fst (on_disconnect st sid)) as [chs' us' rs'] eqn:E.
  assert (Hc : chs' = channels (fst (on_disconnect st sid))) by now rewrite E.
  assert (Hu : us' = users (fst (on_disconnect st sid))) by now rewrite E.
  rewrite on_disconnect_channels in Hc. rewrite on_disconnect_users in Hu.
  assert (Hus : forall k user c',
            JsMap.get us' k = Some user -> u_currentChannel user = Some c' ->
            JsMap.get (users st) k = Some user /\ k <> sid).
  { intros k user c' Hget _. subst us'.
    destruct (string_dec sid k) as [-> | Hne].
    - rewrite get_delete_eq in Hget. discriminate.
    - rewrite get_delete_ne in Hget by assumption. split; congruence. }
  destruct (JsMap.get (users st) sid) as [user|];
    [destruct (u_currentChannel user) as [c|]; [destruct (truthy_str c)|]|];
    subst chs';
    solve [ now apply remove_member_Inv
          | now apply unchanged_channels_Inv with (sid := sid) ].
Qed.

Lemma disconnect_Inv (st : State) (sid : string) :
  Inv st -> Inv (fst (disconnect st sid)).
Proof.
  intros HI. unfold disconnect. apply on_disconnect_Inv.
  destruct HI as [Hcur Hkey Hne]. constructor; simpl; assumption.
Qed.

Lemma join_channel_users (st : State) (sid : string) (p : Payload) (now : Z) :
  users (fst (join_channel st sid p now))
  = match JsMap.get (users st) sid with
    | Some user =>
        JsMap.set (users st) sid
          (mkUser (u_socketId user) (u_connectedAt user) (Some (channelId p)) (userId p))
    | None => users st
    end.
Proof. unfold join_channel. now rewrite join_channel_lookup. Qed.

Lemma join_channel_rooms (st : State) (sid : string) (p : Payload) (now : Z) :
  rooms (fst (join_channel st sid p now)) = socket_join (rooms st) sid (channelId p).
Proof. unfold join_channel. now rewrite join_channel_lookup. Qed.

(** Member map of the joined channel right after the join. *)
Lemma join_channel_members (st : State) (sid : string) (p : Payload) (now : Z) :
  members (fst (join_channel st sid p now)) (channelId p)
  = JsMap.set (members st (channelId p)) sid (mkMember (userId p) sid now).
Proof.
  unfold members. rewrite join_channel_channels, get_set_eq.
  now destruct (JsMap.get (channels st) (channelId p)).
Qed.

Lemma join_channel_members_other (st : State) (sid : string) (p : Payload) (now : Z) (c : string) :
  c <> channelId p -> members (fst (join_channel st sid p now)) c = members st c.
Proof.
  intros Hne. unfold members. rewrite join_channel_channels.
  rewrite get_set_ne by congruence. reflexivity.
Qed.

Lemma is_member_get (st : State) (c k : string) :
  is_member st c k = true <-> JsMap.get (members st c) k <> None.
Proof. unfold is_member. apply has_true_iff. Qed.

Lemma join_channel_Inv (st : State) (sid : string) (p : Payload) (now : Z) :
  Inv st -> Inv (fst (join_channel st sid p now)).
Proof.
  intros HI. constructor.
  - intros k user c Hget Hcur. rewrite join_channel_users in Hget.
    apply is_member_get.
    assert (Hold : JsMap.get (users st) k = Some user ->
                   JsMap.get (members (fst (join_channel st sid p now)) c) k <> None).
    { intros Hk. pose proof (inv_current st HI k user c Hk Hcur) as Hm.
      apply is_member_get in Hm.
      destruct (string_dec c (channelId p)) as [-> | Hne].
      - rewrite join_channel_members.
        destruct (string_dec sid k) as [-> | Hsk].
        + rewrite get_set_eq. discriminate.
        + now rewrite get_set_ne.
      - now rewrite join_channel_members_other. }
    destruct (JsMap.get (users st) sid) as [u0|] eqn:Eu; [|now apply Hold].
    destruct (string_dec sid k) as [-> | Hsk].
    + rewrite get_set_eq in Hget. inversion Hget. subst user. simpl in Hcur.
      inversion Hcur. subst c. rewrite join_channel_members, get_set_eq. discriminate.
    + rewrite get_set_ne in Hget by assumption. now apply Hold.
  - intros c ch' k m Hin Hm. rewrite join_channel_channels in Hin.
    apply In_set in Hin. destruct Hin as [[-> ->] | Hin].
    + destruct (JsMap.get (channels st) (channelId p)) as [channel|] eqn:Ech.
      * simpl in Hm. apply In_set in Hm. destruct Hm as [[-> ->] | Hm]; [reflexivity|].
        apply get_Some_In in Ech. now apply (inv_keyed st HI _ _ _ _ Ech).
      * simpl in Hm. destruct Hm as [Hm | []]. now inversion Hm.
    + now apply (inv_keyed st HI c ch').
  - intros c ch' Hin. rewrite join_channel_channels in Hin.
    apply In_set in Hin. destruct Hin as [[-> ->] | Hin].
    + destruct (JsMap.get (channels st) (channelId p)) as [channel|]; simpl.
      * intros Hnil.
        assert (Hg : JsMap.get (JsMap.set (c_users channel) sid
                                  (mkMember (userId p) sid now)) sid = None)
          by now rewrite Hnil.
        rewrite get_set_eq in Hg. discriminate.
      * discriminate.
    + now apply (inv_nonempty st HI c).
Qed.

Lemma increment_messageCount_Inv (st : State) (c : string) :
  Inv st ->
  Inv (mkState (increment_messageCount (channels st) c) (users st) (rooms st)).
Proof.
  intros HI.
  apply Inv_update with (st := st) (P := fun _ => True); [assumption| | |].
  - intros sid user c' Hget _. now split.
  - intros c' k ch _ Hch Hmem. unfold increment_messageCount.
    destruct (JsMap.get (channels st) c) as [channel|] eqn:Ec; [|now exists ch].
    destruct (string_dec c c') as [-> | Hne].
    + rewrite get_set_eq. eexists. split; [reflexivity|]. simpl. congruence.
    + rewrite get_set_ne by assumption. now exists ch.
  - intros c' ch' Hin. unfold increment_messageCount in Hin.
    assert (Hold : In (c', ch') (channels st) ->
              c_users ch' <> [] /\
              forall k m, In (k, m) (c_users ch') ->
                exists ch, In (c', ch) (channels st) /\ In (k, m) (c_users ch)).
    { intros H. split; [now apply (inv_nonempty st HI c')|]. intros k m Hm. now exists ch'. }
    destruct (JsMap.get (channels st) c) as [channel|] eqn:Ec; [|now apply Hold].
    apply In_set in Hin. destruct Hin as [[-> ->] | Hin]; [|now apply Hold].
    apply get_Some_In in Ec. simpl. split; [now apply (inv_nonempty st HI c)|].
    intros k m Hm. now exists channel.
Qed.

Lemma sweep_empty_channels_Inv (st : State) :
  Inv st -> Inv (fst (sweep_empty_channels st)).
Proof.
  intros HI. unfold sweep_empty_channels. simpl.
  apply Inv_update with (st := st) (P := fun _ => True); [assumption| | |].
  - intros sid user c' Hget _. now split.
  - intros c k ch _ Hch Hmem. exists ch. split; [|assumption].
    apply get_filter_keep; [assumption|]. simpl.
    destruct (JsMap.size (c_users ch) =? 0) eqn:Esz; [|reflexivity].
    apply size_zero_iff in Esz. rewrite Esz in Hmem. now elim Hmem.
  - intros c ch' Hin. apply filter_In in Hin. destruct Hin as [Hin _].
    split; [now apply (inv_nonempty st HI c)|]. intros k m Hm. now exists ch'.
Qed.

(** The sweep finds nothing to clean in a state that satisfies the
    invariant: deletion at removal time is the effective path. *)
Lemma sweep_empty_channels_idle (st : State) :
  Inv st -> sweep_empty_channels st = (st, 0).
Proof.
  intros HI. unfold sweep_empty_channels.
  assert (Hf : filter (fun e => negb (JsMap.size (c_users (snd e)) =? 0)) (channels st)
               = channels st).
  { pose proof (inv_nonempty st HI) as Hne.
    induction (channels st) as [|[c ch] r IH]; simpl; [reflexivity|].
    destruct (JsMap.size (c_users ch) =? 0) eqn:Esz; simpl.
    - apply size_zero_iff in Esz. exfalso. apply (Hne c ch); [now left | assumption].
    - f_equal. apply IH. intros c' ch' Hin. apply (Hne c' ch'). now right. }
  rewrite Hf. destruct st. simpl. f_equal. lia.
Qed.

Theorem GlobalAddr_run_Inv (evs : list GlobalAddr.input) (st : State) :
  Inv st -> Inv (GlobalAddr.run st evs).
Proof.
  revert st. unfold GlobalAddr.run.
  induction evs as [|i evs IH]; simpl; intros st HI; [assumption|].
  apply IH. destruct i; simpl.
  - now apply connection_Inv.
  - now apply join_channel_Inv.
  - now apply leave_channel_Inv.
  - unfold GlobalAddr.webrtc_offer.
    destruct (GlobalAddr.findSocketIdByUserId (users st) (to p)) as [t|];
      [destruct (truthy_str t)|]; assumption.
  - unfold GlobalAddr.webrtc_answer.
    destruct (GlobalAddr.findSocketIdByUserId (users st) (to p)) as [t|];
      [destruct (truthy_str t)|]; assumption.
  - unfold GlobalAddr.ice_candidate.
    destruct (GlobalAddr.findSocketIdByUserId (users st) (to p)) as [t|];
      [destruct (truthy_str t)|]; assumption.
  - now apply increment_messageCount_Inv.
  - assumption.
  - assumption.
  - unfold get_channel_users.
    destruct (JsMap.get (channels st) (channelId p)); assumption.
  - now apply disconnect_Inv.
  - now apply sweep_empty_channels_Inv.
Qed.

Theorem ChannelScoped_run_Inv (evs : list ChannelScoped.input) (st : State) :
  Inv st -> Inv (ChannelScoped.run st evs).
Proof.
  revert st. unfold ChannelScoped.run.
  induction evs as [|i evs IH]; simpl; intros st HI; [assumption|].
  apply IH. destruct i; simpl;
    try assumption;
    try (now apply connection_Inv);
    try (now apply join_channel_Inv);
    try (now apply leave_channel_Inv);
    try (now apply increment_messageCount_Inv);
    try (now apply disconnect_Inv);
    try (now apply sweep_empty_channels_Inv).
  - unfold get_channel_users.
    destruct (JsMap.get (channels st) (channelId p)); assumption.
  - unfold ChannelScoped.webrtc_answer.
    destruct (JsMap.get (channels st) (channelId p)) as [ch|];
      [destruct (ChannelScoped.find_target ch (targetUserId p))|]; assumption.
  - unfold ChannelScoped.webrtc_ice_candidate.
    destruct (truthy (targetUserId p)); [|assumption].
    destruct (JsMap.get (channels st) (channelId p)) as [ch|];
      [destruct (ChannelScoped.find_target ch (targetUserId p))|]; assumption.
  - unfold ChannelScoped.request_webrtc_connection.
    destruct (JsMap.get (channels st) (channelId p)) as [ch|];
      [destruct (ChannelScoped.find_target ch (targetUserId p))|]; assumption.
Qed.

(** * Room bindings *)

Lemma in_room_iff (rs : Rooms) (room sid : string) :
  in_room rs room sid = true <-> In (room, sid) rs.
Proof.
  unfold in_room, room_sockets. rewrite existsb_exists. split.
  - intros (x & Hin & Heq). apply String.eqb_eq in Heq. subst x.
    apply nodup_In, in_map_iff in Hin. destruct Hin as ([r s0] & Hs & Hin).
    simpl in Hs. subst s0. apply filter_In in Hin. destruct Hin as [Hin Hr].
    simpl in Hr. apply String.eqb_eq in Hr. now subst r.
  - intros Hin. exists sid. split; [|apply String.eqb_refl].
    apply nodup_In, in_map_iff. exists (room, sid). split; [reflexivity|].
    apply filter_In. split; [assumption|]. simpl. apply String.eqb_refl.
Qed.

Lemma In_socket_join (rs : Rooms) (sid room : string) (b : string * string) :
  In b rs -> In b (socket_join rs sid room).
Proof.
  unfold socket_join. destruct (bound rs room sid); [trivial|].
  intros H. apply in_or_app. now left.
Qed.

Lemma socket_leave_all_idem (rs : Rooms) (sid : string) :
  socket_leave_all (socket_leave_all rs sid) sid = socket_leave_all rs sid.
Proof.
  unfold socket_leave_all. induction rs as [|b r IH]; simpl; [reflexivity|].
  destruct (negb (String.eqb (snd b) sid)) eqn:E; simpl; [rewrite E; f_equal|]; exact IH.
Qed.

(** * Join: snapshot and notifications *)

Lemma filter_others_keyed (l : JsMap.t Member) (sid : string) :
  (forall k m, In (k, m) l -> m_socketId m = k) ->
  JsMap.get l sid = None ->
  filter (fun u => negb (String.eqb (m_socketId u) sid)) (JsMap.values l) = JsMap.values l.
Proof.
  unfold JsMap.values.
  induction l as [|[k m] r IH]; simpl; intros Hkey Hget; [reflexivity|].
  destruct (String.eqb k sid) eqn:E; [discriminate|].
  rewrite (Hkey k m (or_introl eq_refl)), E. simpl. f_equal.
  apply IH; [|assumption]. intros k' m' Hin. apply Hkey. now right.
Qed.

Lemma Inv_members_keyed (st : State) (c : string) :
  Inv st -> forall k m, In (k, m) (members st c) -> m_socketId m = k.
Proof.
  intros HI k m. unfold members.
  destruct (JsMap.get (channels st) c) as [channel|] eqn:E; [|intros []].
  apply get_Some_In in E. now apply (inv_keyed st HI c channel).
Qed.

(** X12.  In a state whose member records are keyed by their socket id, a
    connection that joins a channel it is not in receives one snapshot
    holding exactly the [userId]s of the members already there, in
    enumeration order, and every such member whose socket is bound to the
    channel's room receives exactly one [user-joined] with the payload's
    [userId]. *)
Lemma join_snapshot_and_notifications (st : State) (sid : string) (p : Payload) (now : Z) :
  (forall k m, In (k, m) (members st (channelId p)) -> m_socketId m = k) ->
  is_member st (channelId p) sid = false ->
  let r := join_channel st sid p now in
  let snapshot := map m_userId (JsMap.values (members st (channelId p))) in
  snd r = [EmitSelf sid (ChannelUsers snapshot);
           EmitRoomExcept (channelId p) sid (UserJoined (userId p))] /\
  Z.of_nat (length snapshot) = member_count st (channelId p) /\
  delivered r sid = [ChannelUsers snapshot] /\
  forall k,
    is_member st (channelId p) k = true ->
    in_room (rooms st) (channelId p) k = true ->
    delivered r k = [UserJoined (userId p)].
Proof.
  intros Hkey Hnot r snapshot.
  apply has_false_iff in Hnot.
  assert (Hout : snd r = [EmitSelf sid (ChannelUsers snapshot);
                          EmitRoomExcept (channelId p) sid (UserJoined (userId p))]).
  { unfold r, join_channel. rewrite join_channel_lookup. cbn [snd c_users].
    replace (c_users match JsMap.get (channels st) (channelId p) with
                     | Some channel => channel
                     | None => mkChannel (channelId p) [] now 0
                     end)
      with (members st (channelId p))
      by (unfold members; now destruct (JsMap.get (channels st) (channelId p))).
    rewrite (set_absent _ _ _ Hnot). unfold JsMap.values at 1.
    rewrite map_app, filter_app. simpl. rewrite String.eqb_refl. simpl.
    rewrite app_nil_r.
    fold (JsMap.values (members st (channelId p))).
    now rewrite (filter_others_keyed _ _ Hkey Hnot). }
  split; [exact Hout|]. split.
  { unfold snapshot, member_count, JsMap.size, JsMap.values.
    now rewrite !length_map. }
  unfold delivered. rewrite Hout. unfold r. rewrite join_channel_rooms. split.
  - rewrite received_cons, received_self, received_room_except.
    rewrite String.eqb_refl. simpl. now rewrite andb_false_r.
  - intros k Hk Hbound.
    assert (Hne : String.eqb k sid = false).
    { apply String.eqb_neq. intros ->. apply is_member_get in Hk. contradiction. }
    rewrite received_cons, received_self, received_room_except, Hne. simpl.
    apply in_room_iff in Hbound.
    apply (In_socket_join _ sid (channelId p)) in Hbound.
    apply in_room_iff in Hbound. now rewrite Hbound.
Qed.

(** * Disconnect *)

(** X11.  A connection whose registry record names a truthy current channel that
    is in the directory: the disconnect removes it from that channel's
    member map, broadcasts one [user-left] with the stored [userId] to the
    channel's room, deletes the channel when its member map has become
    empty, and removes the registry record. *)
Lemma disconnect_current_channel
      (st : State) (sid : string) (user : User) (c : string) (channel : Channel) :
  JsMap.get (users st) sid = Some user ->
  u_currentChannel user = Some c ->
  truthy_str c = true ->
  JsMap.get (channels st) c = Some channel ->
  let r := disconnect st sid in
  is_member (fst r) c sid = false /\
  (forall k, k <> sid ->
     JsMap.get (members (fst r) c) k = JsMap.get (members st c) k) /\
  snd r = [EmitRoomExcept c sid (UserLeft (u_userId user))] /\
  (forall k, in_room (rooms st) c k = true -> k <> sid ->
     delivered r k = [UserLeft (u_userId user)]) /\
  (JsMap.delete (c_users channel) sid = [] -> JsMap.has (channels (fst r)) c = false) /\
  JsMap.get (users (fst r)) sid = None.
Proof.
  intros Hu Hc Ht Hch r.
  assert (Hout : snd r = [EmitRoomExcept c sid (UserLeft (u_userId user))]).
  { unfold r, disconnect, on_disconnect. cbn [users channels rooms].
    rewrite Hu, Hc. cbn [truthy_channel]. rewrite Ht, Hch. cbn [c_users].
    now destruct (JsMap.size (JsMap.delete (c_users channel) sid) =? 0). }
  assert (Hchs : channels (fst r) = remove_member (channels st) c sid).
  { unfold r, disconnect. rewrite on_disconnect_channels. cbn [users channels].
    now rewrite Hu, Hc, Ht. }
  assert (Hmem : members (fst r) c = JsMap.delete (c_users channel) sid).
  { unfold members. rewrite Hchs. unfold remove_member. rewrite Hch. cbn [c_users].
    destruct (JsMap.size (JsMap.delete (c_users channel) sid) =? 0) eqn:Esz.
    - rewrite get_delete_eq. apply size_zero_iff in Esz. now rewrite Esz.
    - now rewrite get_set_eq. }
  assert (Hrooms : rooms (fst r) = socket_leave_all (rooms st) sid).
  { unfold r, disconnect, on_disconnect. cbn [users channels rooms].
    rewrite Hu, Hc. cbn [truthy_channel]. rewrite Ht, Hch. cbn [c_users].
    now destruct (JsMap.size (JsMap.delete (c_users channel) sid) =? 0). }
  repeat split.
  - unfold is_member. rewrite Hmem. apply has_false_iff, get_delete_eq.
  - intros k Hk. rewrite Hmem. unfold members. rewrite Hch.
    apply get_delete_ne. congruence.
  - exact Hout.
  - intros k Hin Hk. unfold delivered. rewrite Hout, Hrooms, received_room_except.
    assert (Hin' : in_room (socket_leave_all (rooms st) sid) c k = true).
    { apply in_room_iff. apply in_room_iff in Hin. unfold socket_leave_all.
      apply filter_In. split; [assumption|]. simpl.
      apply negb_true_iff, String.eqb_neq. assumption. }
    rewrite Hin'. apply String.eqb_neq in Hk. now rewrite Hk.
  - intros Hempty. apply has_false_iff. rewrite Hchs. unfold remove_member.
    rewrite Hch. cbn [c_users]. rewrite Hempty. simpl. apply get_delete_eq.
  - unfold r, disconnect. rewrite on_disconnect_users. apply get_delete_eq.
Qed.

(** X10.  Processing the disconnect of the same connection again changes nothing
    and emits nothing. *)
Lemma disconnect_idempotent (st : State) (sid : string) :
  disconnect (fst (disconnect st sid)) sid = (fst (disconnect st sid), []).
Proof.
  assert (Hgone : JsMap.get (users (fst (disconnect st sid))) sid = None).
  { unfold disconnect. rewrite on_disconnect_users. apply get_delete_eq. }
  assert (Hrooms : rooms (fst (disconnect st sid)) = socket_leave_all (rooms st) sid).
  { unfold disconnect, on_disconnect. cbn [users channels rooms].
    destruct (JsMap.get (users st) sid) as [user|]; [|reflexivity].
    destruct (truthy_channel (u_currentChannel user)); [|reflexivity].
    destruct (u_currentChannel user) as [c|]; [|reflexivity].
    destruct (JsMap.get (channels st) c) as [channel|]; [|reflexivity].
    cbn [c_users].
    now destruct (JsMap.size (JsMap.delete (c_users channel) sid) =? 0). }
  destruct (fst (disconnect st sid)) as [chs us rs] eqn:E. simpl in Hgone, Hrooms.
  unfold disconnect, on_disconnect. cbn [users channels rooms].
  rewrite Hgone. rewrite (delete_absent _ _ Hgone).
  subst rs. now rewrite socket_leave_all_idem.
Qed.

(** * Invariant I1 and the second join *)

(** X13.  Only the "only if" half of I1 holds in the reachable states of either
    iteration: the channel a registry record names does contain the
    connection. *)
Lemma reachable_current_channel_is_joined :
  (forall evs sid user c,
     JsMap.get (users (GlobalAddr.run init evs)) sid = Some user ->
     u_currentChannel user = Some c ->
     is_member (GlobalAddr.run init evs) c sid = true) /\
  (forall evs sid user c,
     JsMap.get (users (ChannelScoped.run init evs)) sid = Some user ->
     u_currentChannel user = Some c ->
     is_member (ChannelScoped.run init evs) c sid = true).
Proof.
  split; intros evs.
  - apply inv_current, GlobalAddr_run_Inv, Inv_init.
  - apply inv_current, ChannelScoped_run_Inv, Inv_init.
Qed.

Lemma alone_in_room1_eq :
  alone_in_room1
  = mkState [("room1", mkChannel "room1" [("A", mkMember (VStr "userA") "A" 2)] 2 0)]
            [("A", mkUser "A" 1 (Some "room1") (VStr "userA"))]
            [("A", "A"); ("room1", "A")].
Proof. reflexivity. Qed.

(** I1 holds after the first join. *)
Lemma I1_after_first_join : I1 alone_in_room1.
Proof.
  rewrite alone_in_room1_eq. intros sid user c Hget.
  cbn [users JsMap.get] in Hget.
  destruct (String.eqb "A" sid) eqn:E; [|discriminate].
  apply String.eqb_eq in E. subst sid. inversion Hget. subst user.
  unfold is_member, members, JsMap.has. cbn [channels JsMap.get u_currentChannel].
  destruct (String.eqb "room1" c) eqn:Ec.
  - apply String.eqb_eq in Ec. subst c. split; reflexivity.
  - split.
    + intros H. inversion H. subst c. discriminate Ec.
    + cbn. discriminate.
Qed.

(** C1.  The code at the input the claim singles out: connection A joins
    room1 and then room2.  The second join records A in room2 and sets
    [currentChannel] to room2 but never removes A from room1, so A is in
    the member maps of both channels and I1 fails in the state reached;
    both iterations reach the same state. *)
Theorem second_join_breaks_I1 :
  ChannelScoped.run init
    [ChannelScoped.OnConnection "A" 1;
     ChannelScoped.OnJoinChannel "A" (msg "room1" (VStr "userA")) 2;
     ChannelScoped.OnJoinChannel "A" (msg "room2" (VStr "userA")) 3] = joined_twice /\
  is_member joined_twice "room1" "A" = true /\
  is_member joined_twice "room2" "A" = true /\
  option_map u_currentChannel (JsMap.get (users joined_twice) "A") = Some (Some "room2") /\
  ~ I1 joined_twice.
Proof.
  repeat split.
  intros H.
  destruct (H "A" (mkUser "A" 1 (Some "room2") (VStr "userA")) "room1" eq_refl) as [_ Hback].
  specialize (Hback eq_refl). discriminate Hback.
Qed.

(** * A member left behind *)

(** C2.  The code at a reachable input where the claim fails.  A joined
    room1, then room2, then disconnected: the disconnect cleaned room2
    only, so room1 still lists A.  J now joins room1, a channel with N = 1
    member.  J receives one snapshot with that member's [userId], as
    claimed; but the one existing member receives no [user-joined]: its
    socket is closed and bound to no room. *)
Theorem stale_member_gets_no_user_joined :
  JsMap.keys (members ghost_in_room1 "room1") = ["A"] /\
  member_count ghost_in_room1 "room1" = 1 /\
  is_member ghost_in_room1 "room1" "J" = false /\
  JsMap.get (users ghost_in_room1) "A" = None /\
  delivered (join_channel ghost_in_room1 "J" (msg "room1" (VStr "userJ")) 6) "J"
    = [ChannelUsers [VStr "userA"]] /\
  delivered (join_channel ghost_in_room1 "J" (msg "room1" (VStr "userJ")) 6) "A" = [].
Proof. repeat split. Qed.

(** C9.  The code at a reachable input where the claim fails.  A is a
    member of room1 (with B) and of room2 when it disconnects.  The
    handler cleans the one channel the registry names, room2: room2 is
    emptied and deleted and the registry record is removed.  A stays in
    room1's member map, which keeps 2 entries, and B, the remaining member
    of room1, receives no [user-left]. *)
Theorem disconnect_cleans_current_channel_only :
  is_member moved_on "room1" "A" = true /\
  is_member moved_on "room2" "A" = true /\
  snd (disconnect moved_on "A") = [EmitRoomExcept "room2" "A" (UserLeft (VStr "userA"))] /\
  JsMap.has (channels (fst (disconnect moved_on "A"))) "room2" = false /\
  JsMap.get (users (fst (disconnect moved_on "A"))) "A" = None /\
  is_member (fst (disconnect moved_on "A")) "room1" "A" = true /\
  member_count (fst (disconnect moved_on "A")) "room1" = 2 /\
  delivered (disconnect moved_on "A") "B" = [].
Proof. repeat split. Qed.

(** The channel id [""] is falsy: a connection that joined it is not
    cleaned up by [disconnect] either, although the registry names it. *)
Lemma disconnect_skips_falsy_channel_id :
  let st := GlobalAddr.run init
              [GlobalAddr.OnConnection "A" 1;
               GlobalAddr.OnJoinChannel "A" (msg "" (VStr "userA")) 2] in
  option_map u_currentChannel (JsMap.get (users st) "A") = Some (Some "") /\
  is_member st "" "A" = true /\
  snd (disconnect st "A") = [] /\
  is_member (fst (disconnect st "A")) "" "A" = true.
Proof. repeat split. Qed.

(** * The worked example of the specification *)

(** A joins room1 as userA, B joins room1 as userB: B receives the snapshot
    [userA] and A receives [user-joined userB].  B sends
    [transmission-start]: A receives it with B's [userId] and the server
    time.  B disconnects: A receives [user-left userB] and room1 keeps one
    member. *)
Lemma worked_example :
  let a_joined := GlobalAddr.run init
                    [GlobalAddr.OnConnection "A" 1;
                     GlobalAddr.OnConnection "B" 2;
                     GlobalAddr.OnJoinChannel "A" (msg "room1" (VStr "userA")) 3] in
  let join_b := join_channel a_joined "B" (msg "room1" (VStr "userB")) 4 in
  let start_b := GlobalAddr.transmission_start (fst join_b) "B"
                   (msg "room1" (VStr "userB")) 5 in
  let gone_b := disconnect (fst start_b) "B" in
  delivered join_b "B" = [ChannelUsers [VStr "userA"]] /\
  delivered join_b "A" = [UserJoined (VStr "userB")] /\
  member_count (fst join_b) "room1" = 2 /\
  delivered start_b "A" = [TransmissionStart (VStr "userB") 5] /\
  delivered start_b "B" = [] /\
  delivered gone_b "A" = [UserLeft (VStr "userB")] /\
  member_count (fst gone_b) "room1" = 1 /\
  JsMap.has (channels (fst gone_b)) "room1" = true.
Proof. repeat split. Qed.

(** * Identity lookup in the registry *)

(** X1.  [findSocketIdByUserId] returns the first registered connection, in
    registration order, that carries the identity, and [null] exactly when
    no registered connection carries it. *)
Theorem findSocketIdByUserId_first (us : JsMap.t User) (t : value) :
  (forall sid,
     GlobalAddr.findSocketIdByUserId us t = Some sid <->
     exists user, first_user_with us t sid user) /\
  (GlobalAddr.findSocketIdByUserId us t = None <->
   forall k u, In (k, u) us -> u_userId u <> t).
Proof.
  split.
  - intros sid. split.
    + induction us as [|[k u] r IH]; simpl; [discriminate|].
      destruct (value_eqb (u_userId u) t) eqn:E.
      * intros H. inversion H. subst k. apply value_eqb_eq in E.
        exists u, [], r. repeat split; [assumption | intros k' u' []].
      * intros H. destruct (IH H) as (user & l1 & l2 & -> & Hu & Hbefore).
        exists user, ((k, u) :: l1), l2. repeat split; [assumption|].
        intros k' u' [Heq | Hin]; [| now apply (Hbefore k' u')].
        inversion Heq. subst. intro Hc. apply value_eqb_eq in Hc. congruence.
    + intros (user & l1 & l2 & -> & Hu & Hbefore).
      induction l1 as [|[k u] r IH]; simpl.
      * subst t. now rewrite value_eqb_refl.
      * destruct (value_eqb (u_userId u) t) eqn:E.
        -- apply value_eqb_eq in E. exfalso.
           apply (Hbefore k u); [now left | assumption].
        -- apply IH. intros k' u' Hin. apply (Hbefore k' u'). now right.
  - split; [|apply findSocketIdByUserId_none].
    induction us as [|[k u] r IH]; simpl; [intros _ k' u' []|].
    destruct (value_eqb (u_userId u) t) eqn:E; [discriminate|].
    intros H k' u' [Heq | Hin]; [| now apply (IH H k' u')].
    inversion Heq. subst. intro Hc. apply value_eqb_eq in Hc. congruence.
Qed.

Lemma first_user_with_found (us : JsMap.t User) (t : value) (sid : string) (user : User) :
  first_user_with us t sid user -> GlobalAddr.findSocketIdByUserId us t = Some sid.
Proof.
  intros (l1 & l2 & -> & Hu & Hbefore).
  induction l1 as [|[k u] r IH]; simpl.
  - subst t. now rewrite value_eqb_refl.
  - destruct (value_eqb (u_userId u) t) eqn:E.
    + apply value_eqb_eq in E. exfalso. apply (Hbefore k u); [now left | assumption].
    + apply IH. intros k' u' Hin. apply (Hbefore k' u'). now right.
Qed.

(** X2.  A global relay whose destination resolves: when [to] is carried by a
    registered connection, the first such connection [t] (with a truthy
    socket id) gets exactly one emission, addressed to its socket alone and
    carrying the sender's identity, for each of the three payload kinds;
    the state is unchanged.  No channel is consulted, so the destination
    need not share a channel with the sender. *)
Theorem global_relay_resolved
        (st : State) (sid : string) (p : Payload) (t : string) (user : User) :
  first_user_with (users st) (to p) t user ->
  truthy_str t = true ->
  (GlobalAddr.webrtc_offer st sid p
     = (st, [EmitRoom t (WebrtcOffer (GlobalAddr.from_of st sid) (body p))]) /\
   GlobalAddr.webrtc_answer st sid p
     = (st, [EmitRoom t (WebrtcAnswer (GlobalAddr.from_of st sid) (body p))]) /\
   GlobalAddr.ice_candidate st sid p
     = (st, [EmitRoom t (IceCandidate (GlobalAddr.from_of st sid) (body p))])) /\
  (room_sockets (rooms st) t = [t] ->
   forall s,
     delivered (GlobalAddr.webrtc_offer st sid p) s
       = (if String.eqb s t
          then [WebrtcOffer (GlobalAddr.from_of st sid) (body p)] else []) /\
     delivered (GlobalAddr.webrtc_answer st sid p) s
       = (if String.eqb s t
          then [WebrtcAnswer (GlobalAddr.from_of st sid) (body p)] else []) /\
     delivered (GlobalAddr.ice_candidate st sid p) s
       = (if String.eqb s t
          then [IceCandidate (GlobalAddr.from_of st sid) (body p)] else [])).
Proof.
  intros Hfirst Ht. apply first_user_with_found in Hfirst.
  assert (Ho : GlobalAddr.webrtc_offer st sid p
               = (st, [EmitRoom t (WebrtcOffer (GlobalAddr.from_of st sid) (body p))]))
    by (unfold GlobalAddr.webrtc_offer; now rewrite Hfirst, Ht).
  assert (Ha : GlobalAddr.webrtc_answer st sid p
               = (st, [EmitRoom t (WebrtcAnswer (GlobalAddr.from_of st sid) (body p))]))
    by (unfold GlobalAddr.webrtc_answer; now rewrite Hfirst, Ht).
  assert (Hi : GlobalAddr.ice_candidate st sid p
               = (st, [EmitRoom t (IceCandidate (GlobalAddr.from_of st sid) (body p))]))
    by (unfold GlobalAddr.ice_candidate; now rewrite Hfirst, Ht).
  split; [now repeat split|].
  intros Hroom s. rewrite Ho, Ha, Hi. unfold delivered. simpl.
  rewrite !received_room. unfold in_room. rewrite Hroom. simpl.
  rewrite orb_false_r. now repeat split.
Qed.

(** A in room1 relays an offer to userB, who is in room2 only. *)
Lemma global_relay_resolved_witness :
  let p := signal "room1" (VStr "userA") (VStr "userB") "sdp" in
  GlobalAddr.webrtc_offer two_rooms "A" p
    = (two_rooms, [EmitRoom "B" (WebrtcOffer (VStr "userA") "sdp")]) /\
  is_member two_rooms "room1" "B" = false /\
  forall s, delivered (GlobalAddr.webrtc_offer two_rooms "A" p) s
            = if String.eqb s "B" then [WebrtcOffer (VStr "userA") "sdp"] else [].
Proof.
  intros p.
  assert (Hfirst : first_user_with (users two_rooms) (to p) "B"
                     (mkUser "B" 2 (Some "room2") (VStr "userB"))).
  { exists [("A", mkUser "A" 1 (Some "room1") (VStr "userA"))], [].
    split; [reflexivity|]. split; [reflexivity|].
    intros k u [H | []]. inversion H. discriminate. }
  destruct (global_relay_resolved two_rooms "A" p "B" _ Hfirst eq_refl)
    as ((Ho & _ & _) & Hd).
  split; [exact Ho|]. split; [reflexivity|].
  intros s. exact (proj1 (Hd eq_refl s)).
Defined.

(** * What a join records in the registry *)

(** X3.  A registered connection that joins gets its record rewritten: the
    current channel and the identity come from the payload, each join
    overwrites the identity again, and the other records stay.  From then on
    the global relays announce the connection by that identity when it is
    truthy and by its socket id otherwise, and its [audio-chunk]s carry
    that identity whatever the chunk payload says. *)
Theorem join_sets_identity
        (st : State) (sid : string) (p : Payload) (now : Z) (user : User) :
  JsMap.get (users st) sid = Some user ->
  let st1 := fst (join_channel st sid p now) in
  JsMap.get (users st1) sid
    = Some (mkUser (u_socketId user) (u_connectedAt user) (Some (channelId p)) (userId p)) /\
  (forall k, k <> sid -> JsMap.get (users st1) k = JsMap.get (users st) k) /\
  GlobalAddr.from_of st1 sid = (if truthy (userId p) then userId p else VStr sid) /\
  (forall q t,
     snd (ChannelScoped.audio_chunk st1 sid q t)
       = [EmitRoomExcept (channelId q) sid
            (AudioChunk (userId p) (body q) (sequence q) t)]).
Proof.
  intros Hu st1.
  assert (Hrec : JsMap.get (users st1) sid
                 = Some (mkUser (u_socketId user) (u_connectedAt user)
                           (Some (channelId p)) (userId p))).
  { unfold st1. rewrite join_channel_users, Hu. apply get_set_eq. }
  split; [exact Hrec|]. split.
  - intros k Hk. unfold st1. rewrite join_channel_users, Hu.
    apply get_set_ne. congruence.
  - split.
    + unfold GlobalAddr.from_of. rewrite Hrec. reflexivity.
    + intros q t. unfold ChannelScoped.audio_chunk. now rewrite Hrec.
Qed.

Lemma join_sets_identity_witness :
  let st1 := fst (join_channel two_rooms "A" (msg "room2" (VStr "alice")) 9) in
  JsMap.get (users st1) "A" = Some (mkUser "A" 1 (Some "room2") (VStr "alice")) /\
  GlobalAddr.from_of st1 "A" = VStr "alice" /\
  snd (ChannelScoped.audio_chunk st1 "A" (msg "room2" (VStr "forged")) 10)
    = [EmitRoomExcept "room2" "A" (AudioChunk (VStr "alice") "" 0 10)].
Proof.
  destruct (join_sets_identity two_rooms "A" (msg "room2" (VStr "alice")) 9
              (mkUser "A" 1 (Some "room1") (VStr "userA")) eq_refl)
    as (Hrec & _ & Hfrom & Hchunk).
  split; [exact Hrec|]. split; [exact Hfrom|].
  exact (Hchunk (msg "room2" (VStr "forged")) 10).
Defined.

Lemma find_after_set (us : JsMap.t User) (sid : string) (rec user0 : User) (t : value) :
  JsMap.get us sid = Some user0 ->
  (forall k u, In (k, u) us -> k <> sid -> u_userId u <> t) ->
  u_userId rec = t ->
  GlobalAddr.findSocketIdByUserId (JsMap.set us sid rec) t = Some sid.
Proof.
  intros Hget Hothers Hrec.
  induction us as [|[k u] r IH]; simpl in *; [discriminate|].
  destruct (String.eqb k sid) eqn:E; simpl.
  - subst t. now rewrite value_eqb_refl.
  - destruct (value_eqb (u_userId u) t) eqn:Eu.
    + apply value_eqb_eq in Eu. exfalso.
      apply (Hothers k u); [now left | | assumption].
      now apply String.eqb_neq.
    + apply IH; [assumption|]. intros k' u' Hin. apply Hothers. now right.
Qed.

(** X4.  Join, lookup, disconnect: when no other registered connection carries
    the identity of the payload, the global lookup of that identity resolves
    to the joiner right after its join, and to nobody once the joiner has
    disconnected. *)
Theorem join_then_lookup_resolves
        (st : State) (sid : string) (p : Payload) (now : Z) (user : User) :
  JsMap.get (users st) sid = Some user ->
  (forall k u, In (k, u) (users st) -> k <> sid -> u_userId u <> userId p) ->
  let st1 := fst (join_channel st sid p now) in
  GlobalAddr.findSocketIdByUserId (users st1) (userId p) = Some sid /\
  GlobalAddr.findSocketIdByUserId (users (fst (disconnect st1 sid))) (userId p) = None.
Proof.
  intros Hu Hothers st1.
  assert (Hus : users st1
                = JsMap.set (users st) sid
                    (mkUser (u_socketId user) (u_connectedAt user)
                       (Some (channelId p)) (userId p))).
  { unfold st1. now rewrite join_channel_users, Hu. }
  split.
  - rewrite Hus. now apply find_after_set with (user0 := user).
  - apply findSocketIdByUserId_none. intros k u Hin.
    unfold disconnect in Hin. rewrite on_disconnect_users in Hin. simpl in Hin.
    apply In_delete in Hin. destruct Hin as [Hin Hk].
    rewrite Hus in Hin. apply In_set in Hin.
    destruct Hin as [[Heq _] | Hin]; [contradiction|].
    now apply (Hothers k u).
Qed.

Lemma join_then_lookup_resolves_witness :
  let st1 := fst (join_channel two_rooms "A" (msg "room2" (VStr "alice")) 9) in
  GlobalAddr.findSocketIdByUserId (users st1) (VStr "alice") = Some "A" /\
  GlobalAddr.findSocketIdByUserId (users (fst (disconnect st1 "A"))) (VStr "alice") = None.
Proof.
  apply (join_then_lookup_resolves two_rooms "A" (msg "room2" (VStr "alice")) 9
           (mkUser "A" 1 (Some "room1") (VStr "userA")) eq_refl).
  simpl. intros k u [H | [H | []]] Hk; inversion H; subst; simpl;
    [now elim Hk | discriminate].
Defined.

(** * Listing the members of a channel *)

(** X5.  [get-channel-users] answers the asker alone, with the [userId]s of the
    channel's member map in enumeration order (the asker's own included),
    with the empty list for a channel that is not in the directory, and
    never changes the state. *)
Theorem get_channel_users_lists_members (st : State) (sid : string) (p : Payload) :
  get_channel_users st sid p
    = (st, [EmitSelf sid
              (ChannelUsers (map m_userId (JsMap.values (members st (channelId p)))))]) /\
  (JsMap.has (channels st) (channelId p) = false ->
   snd (get_channel_users st sid p) = [EmitSelf sid (ChannelUsers [])]) /\
  forall s,
    delivered (get_channel_users st sid p) s
      = if String.eqb s sid
        then [ChannelUsers (map m_userId (JsMap.values (members st (channelId p))))]
        else [].
Proof.
  assert (H : get_channel_users st sid p
              = (st, [EmitSelf sid
                        (ChannelUsers
                           (map m_userId (JsMap.values (members st (channelId p)))))])).
  { unfold get_channel_users, members.
    now destruct (JsMap.get (channels st) (channelId p)). }
  split; [exact H|]. split.
  - intros Habs. apply has_false_iff in Habs. unfold get_channel_users.
    now rewrite Habs.
  - intros s. rewrite H. unfold delivered. simpl. apply received_self.
Qed.

(** X6.  Two distinct connections join, one after the other, a channel that was
    not in the directory: the channel then has exactly these two members,
    in join order; the second joiner's snapshot lists the first;
    [get-channel-users] gives either of them both identities. *)
Theorem two_joiners
        (st : State) (s1 s2 : string) (p1 p2 : Payload) (t1 t2 : Z) (q : Payload) :
  JsMap.has (channels st) (channelId p1) = false ->
  channelId p2 = channelId p1 ->
  channelId q = channelId p1 ->
  s1 <> s2 ->
  let st1 := fst (join_channel st s1 p1 t1) in
  let r2 := join_channel st1 s2 p2 t2 in
  JsMap.keys (members (fst r2) (channelId p1)) = [s1; s2] /\
  member_count (fst r2) (channelId p1) = 2 /\
  snd r2 = [EmitSelf s2 (ChannelUsers [userId p1]);
            EmitRoomExcept (channelId p1) s2 (UserJoined (userId p2))] /\
  snd (get_channel_users (fst r2) s1 q)
    = [EmitSelf s1 (ChannelUsers [userId p1; userId p2])] /\
  snd (get_channel_users (fst r2) s2 q)
    = [EmitSelf s2 (ChannelUsers [userId p1; userId p2])].
Proof.
  intros Habs Hc2 Hq Hne st1 r2.
  apply has_false_iff in Habs.
  assert (Hm1 : members st1 (channelId p1) = [(s1, mkMember (userId p1) s1 t1)]).
  { unfold st1. rewrite join_channel_members. unfold members. now rewrite Habs. }
  assert (Hm2 : members (fst r2) (channelId p1)
                = [(s1, mkMember (userId p1) s1 t1); (s2, mkMember (userId p2) s2 t2)]).
  { unfold r2. rewrite <- Hc2. rewrite join_channel_members. rewrite Hc2, Hm1. simpl.
    apply String.eqb_neq in Hne. now rewrite Hne. }
  assert (Hg : forall s, snd (get_channel_users (fst r2) s q)
                         = [EmitSelf s (ChannelUsers [userId p1; userId p2])]).
  { intros s. unfold get_channel_users. rewrite Hq.
    unfold members in Hm2.
    destruct (JsMap.get (channels (fst r2)) (channelId p1)) as [ch|];
      [|discriminate Hm2].
    simpl. now rewrite Hm2. }
  split; [now rewrite Hm2|]. split; [unfold member_count; now rewrite Hm2|].
  split; [|split; apply Hg].
  unfold r2, join_channel. rewrite join_channel_lookup. cbn [snd c_users].
  rewrite Hc2.
  replace (c_users match JsMap.get (channels st1) (channelId p1) with
                   | Some channel => channel
                   | None => mkChannel (channelId p1) [] t2 0
                   end)
    with (members st1 (channelId p1))
    by (unfold members; now destruct (JsMap.get (channels st1) (channelId p1))).
  rewrite Hm1. simpl.
  assert (E1 : String.eqb s1 s2 = false) by now apply String.eqb_neq.
  rewrite E1. simpl. rewrite E1, String.eqb_refl. reflexivity.
Qed.

Lemma two_joiners_witness :
  let st1 := fst (join_channel init "A" (msg "room1" (VStr "userA")) 1) in
  let r2 := join_channel st1 "B" (msg "room1" (VStr "userB")) 2 in
  JsMap.keys (members (fst r2) "room1") = ["A"; "B"] /\
  member_count (fst r2) "room1" = 2 /\
  snd r2 = [EmitSelf "B" (ChannelUsers [VStr "userA"]);
            EmitRoomExcept "room1" "B" (UserJoined (VStr "userB"))] /\
  snd (get_channel_users (fst r2) "A" (msg "room1" VUndefined))
    = [EmitSelf "A" (ChannelUsers [VStr "userA"; VStr "userB"])] /\
  snd (get_channel_users (fst r2) "B" (msg "room1" VUndefined))
    = [EmitSelf "B" (ChannelUsers [VStr "userA"; VStr "userB"])].
Proof.
  apply (two_joiners init "A" "B" (msg "room1" (VStr "userA"))
           (msg "room1" (VStr "userB")) 1 2 (msg "room1" VUndefined)
           eq_refl eq_refl eq_refl).
  discriminate.
Defined.

(** * Leaving a channel one is in *)

Lemma in_room_leave_other (rs : Rooms) (sid c c' s : string) :
  s <> sid -> in_room (socket_leave rs sid c) c' s = in_room rs c' s.
Proof.
  intros Hne. apply eq_true_iff_eq. rewrite !in_room_iff.
  unfold socket_leave. rewrite filter_In. simpl.
  apply String.eqb_neq in Hne. rewrite Hne, andb_false_r. simpl. tauto.
Qed.

Lemma in_room_leave_self (rs : Rooms) (sid c : string) :
  in_room (socket_leave rs sid c) c sid = false.
Proof.
  apply not_true_iff_false. rewrite in_room_iff.
  unfold socket_leave. rewrite filter_In. simpl.
  rewrite !String.eqb_refl. simpl. intros [_ H]. discriminate.
Qed.

Lemma leave_channel_rooms (st : State) (sid : string) (p : Payload) (channel : Channel) :
  JsMap.get (channels st) (channelId p) = Some channel ->
  rooms (fst (leave_channel st sid p)) = socket_leave (rooms st) sid (channelId p).
Proof.
  intros Hch. unfold leave_channel. rewrite Hch. cbn [c_users].
  now destruct (JsMap.size (JsMap.delete (c_users channel) sid) =? 0).
Qed.

Lemma leave_channel_out (st : State) (sid : string) (p : Payload) (channel : Channel) :
  JsMap.get (channels st) (channelId p) = Some channel ->
  snd (leave_channel st sid p) = [EmitRoomExcept (channelId p) sid (UserLeft (userId p))].
Proof.
  intros Hch. unfold leave_channel. rewrite Hch. cbn [c_users].
  now destruct (JsMap.size (JsMap.delete (c_users channel) sid) =? 0).
Qed.

(** X7.  A [leave-channel] that names a channel of the directory: the caller is
    gone from that channel's member map and from its room, the other
    members and the other channels are as before, the channel is deleted
    exactly when the caller was its last member, every other socket bound
    to the room receives one [user-left] and the caller receives nothing,
    and the caller's registry record keeps its identity with no current
    channel. *)
Theorem leave_channel_existing
        (st : State) (sid : string) (p : Payload) (channel : Channel) :
  JsMap.get (channels st) (channelId p) = Some channel ->
  let r := leave_channel st sid p in
  is_member (fst r) (channelId p) sid = false /\
  (forall k, k <> sid ->
     JsMap.get (members (fst r) (channelId p)) k = JsMap.get (members st (channelId p)) k) /\
  (forall c, c <> channelId p -> members (fst r) c = members st c) /\
  (JsMap.has (channels (fst r)) (channelId p) = false <->
   JsMap.delete (c_users channel) sid = []) /\
  (forall s,
     delivered r s
       = if in_room (rooms st) (channelId p) s && negb (String.eqb s sid)
         then [UserLeft (userId p)] else []) /\
  in_room (rooms (fst r)) (channelId p) sid = false /\
  (forall user,
     JsMap.get (users st) sid = Some user ->
     JsMap.get (users (fst r)) sid
       = Some (mkUser (u_socketId user) (u_connectedAt user) None (u_userId user))).
Proof.
  intros Hch r.
  assert (Hchs : channels (fst r) = remove_member (channels st) (channelId p) sid)
    by apply leave_channel_channels.
  assert (Hmem : members (fst r) (channelId p) = JsMap.delete (c_users channel) sid).
  { unfold members. rewrite Hchs. unfold remove_member. rewrite Hch. cbn [c_users].
    destruct (JsMap.size (JsMap.delete (c_users channel) sid) =? 0) eqn:Esz.
    - rewrite get_delete_eq. apply size_zero_iff in Esz. now rewrite Esz.
    - now rewrite get_set_eq. }
  split; [unfold is_member; rewrite Hmem; apply has_false_iff, get_delete_eq|].
  split.
  { intros k Hk. rewrite Hmem. unfold members. rewrite Hch.
    apply get_delete_ne. congruence. }
  split.
  { intros c Hc. unfold members. rewrite Hchs. now rewrite rm_get_other. }
  split.
  { rewrite Hchs. unfold remove_member. rewrite Hch. cbn [c_users].
    destruct (JsMap.size (JsMap.delete (c_users channel) sid) =? 0) eqn:Esz.
    - apply size_zero_iff in Esz. split; [now intros _|]. intros _.
      apply has_false_iff, get_delete_eq.
    - split.
      + intros H. apply has_false_iff in H. rewrite get_set_eq in H. discriminate.
      + intros H. rewrite H in Esz. discriminate. }
  split.
  { intros s. unfold delivered.
    unfold r. rewrite (leave_channel_out st sid p channel Hch).
    rewrite (leave_channel_rooms st sid p channel Hch), received_room_except.
    destruct (String.eqb s sid) eqn:Es.
    - now rewrite !andb_false_r.
    - apply String.eqb_neq in Es. now rewrite in_room_leave_other. }
  split.
  { unfold r. rewrite (leave_channel_rooms st sid p channel Hch).
    apply in_room_leave_self. }
  intros user Hu. unfold r. rewrite leave_channel_users, Hu. apply get_set_eq.
Qed.

Lemma leave_channel_existing_witness :
  let r := leave_channel three_in_room1 "B" (msg "room1" (VStr "userB")) in
  is_member (fst r) "room1" "B" = false /\
  JsMap.keys (members (fst r) "room1") = ["A"; "C"] /\
  delivered r "A" = [UserLeft (VStr "userB")] /\
  delivered r "B" = [] /\
  JsMap.has (channels (fst r)) "room1" = true.
Proof.
  destruct (leave_channel_existing three_in_room1 "B" (msg "room1" (VStr "userB"))
              (mkChannel "room1"
                 [("A", mkMember (VStr "userA") "A" 4);
                  ("B", mkMember (VStr "userB") "B" 5);
                  ("C", mkMember (VStr "userC") "C" 6)] 4 0) eq_refl)
    as (Hgone & _ & _ & _ & Hd & _).
  split; [exact Hgone|]. split; [reflexivity|].
  split; [exact (Hd "A")|]. split; [exact (Hd "B") | reflexivity].
Defined.

(** * Sessions that leave no trace *)

Lemma state_ext (a b : State) :
  channels a = channels b -> users a = users b -> rooms a = rooms b -> a = b.
Proof. destruct a, b. simpl. now intros -> -> ->. Qed.

Lemma on_disconnect_rooms (st : State) (sid : string) :
  rooms (fst (on_disconnect st sid)) = rooms st.
Proof.
  unfold on_disconnect.
  destruct (JsMap.get (users st) sid) as [user|]; [|reflexivity].
  destruct (truthy_channel (u_currentChannel user)); [|reflexivity].
  destruct (u_currentChannel user) as [c|]; [|reflexivity].
  destruct (JsMap.get (channels st) c) as [channel|]; [|reflexivity].
  cbn [c_users].
  now destruct (JsMap.size (JsMap.delete (c_users channel) sid) =? 0).
Qed.

Lemma leave_all_fresh (rs : Rooms) (sid : string) :
  (forall b, In b rs -> snd b <> sid) -> socket_leave_all rs sid = rs.
Proof.
  unfold socket_leave_all. induction rs as [|b r IH]; simpl; intros H; [reflexivity|].
  assert (Hb : String.eqb (snd b) sid = false)
    by (apply String.eqb_neq, H; now left).
  rewrite Hb. simpl. f_equal. apply IH. intros b' Hin. apply H. now right.
Qed.

Lemma leave_all_join (rs : Rooms) (sid room : string) :
  socket_leave_all (socket_join rs sid room) sid = socket_leave_all rs sid.
Proof.
  unfold socket_join. destruct (bound rs room sid); [reflexivity|].
  unfold socket_leave_all. rewrite filter_app. simpl.
  rewrite String.eqb_refl. simpl. apply app_nil_r.
Qed.

(** X8.  A connection that connects and disconnects without joining leaves the
    server exactly as it found it, and its disconnect emits nothing. *)
Theorem connect_then_disconnect (st : State) (sid : string) (now : Z) :
  fresh_socket st sid ->
  disconnect (fst (connection st sid now)) sid = (st, []).
Proof.
  intros [Hu Hr].
  assert (Hrec : JsMap.get (users (fst (connection st sid now))) sid
                 = Some (mkUser sid now None VNull))
    by (unfold connection; simpl; apply get_set_eq).
  assert (Hout : snd (disconnect (fst (connection st sid now)) sid) = []).
  { unfold disconnect, on_disconnect. cbn [users channels rooms].
    now rewrite Hrec. }
  rewrite (surjective_pairing (disconnect _ _)), Hout. f_equal.
  apply state_ext.
  - unfold disconnect. rewrite on_disconnect_channels. cbn [users channels].
    now rewrite Hrec.
  - unfold disconnect. rewrite on_disconnect_users. unfold connection. simpl.
    now apply delete_set_absent.
  - unfold disconnect. rewrite on_disconnect_rooms. unfold connection. simpl.
    rewrite leave_all_join. now apply leave_all_fresh.
Qed.

Lemma connect_then_disconnect_witness :
  disconnect (fst (connection two_rooms "Z" 9)) "Z" = (two_rooms, []).
Proof.
  apply connect_then_disconnect. split; [reflexivity|].
  simpl. intros b [<- | [<- | [<- | [<- | []]]]]; discriminate.
Defined.

(** X9.  A whole session: a fresh connection connects, joins a channel that is
    not in the directory and whose id is truthy, and disconnects.  The
    disconnect deletes the channel and the registry record, and the server
    state is exactly what it was before the connection. *)
Theorem session_leaves_no_trace
        (st : State) (sid : string) (p : Payload) (t0 t1 : Z) :
  fresh_socket st sid ->
  JsMap.has (channels st) (channelId p) = false ->
  truthy_str (channelId p) = true ->
  let st1 := fst (connection st sid t0) in
  let st2 := fst (join_channel st1 sid p t1) in
  is_member st2 (channelId p) sid = true /\
  disconnect st2 sid = (st, [EmitRoomExcept (channelId p) sid (UserLeft (userId p))]).
Proof.
  intros [Hu Hr] Habs Htruthy st1 st2.
  apply has_false_iff in Habs.
  assert (Hch2 : channels st2
                 = JsMap.set (channels st) (channelId p)
                     (mkChannel (channelId p) [(sid, mkMember (userId p) sid t1)] t1 0)).
  { unfold st2. rewrite join_channel_channels. unfold st1, connection. simpl.
    now rewrite Habs. }
  assert (Hus2 : users st2
                 = JsMap.set (users st) sid (mkUser sid t0 (Some (channelId p)) (userId p))).
  { unfold st2. rewrite join_channel_users. unfold st1, connection. simpl.
    rewrite get_set_eq. simpl. apply set_set. }
  assert (Hrs2 : socket_leave_all (rooms st2) sid = rooms st).
  { unfold st2. rewrite join_channel_rooms. unfold st1, connection. simpl.
    rewrite !leave_all_join. now apply leave_all_fresh. }
  split.
  { apply is_member_get. unfold members. rewrite Hch2, get_set_eq. simpl.
    rewrite String.eqb_refl. discriminate. }
  assert (Hout : snd (disconnect st2 sid)
                 = [EmitRoomExcept (channelId p) sid (UserLeft (userId p))]).
  { unfold disconnect, on_disconnect. cbn [users channels rooms].
    rewrite Hus2, get_set_eq. cbn [u_currentChannel truthy_channel u_userId].
    rewrite Htruthy, Hch2, get_set_eq. cbn [c_users].
    now destruct (JsMap.size (JsMap.delete [(sid, mkMember (userId p) sid t1)] sid) =? 0). }
  rewrite (surjective_pairing (disconnect _ _)), Hout. f_equal.
  apply state_ext.
  - unfold disconnect. rewrite on_disconnect_channels. cbn [users channels].
    rewrite Hus2, get_set_eq. cbn [u_currentChannel]. rewrite Htruthy.
    unfold remove_member. rewrite Hch2, get_set_eq. cbn [c_users]. simpl.
    rewrite String.eqb_refl. simpl. rewrite set_set. now apply delete_set_absent.
  - unfold disconnect. rewrite on_disconnect_users. cbn [users].
    rewrite Hus2. now apply delete_set_absent.
  - unfold disconnect. rewrite on_disconnect_rooms. cbn [rooms]. exact Hrs2.
Qed.

Lemma session_leaves_no_trace_witness :
  disconnect
    (fst (join_channel (fst (connection two_rooms "Z" 8)) "Z"
            (msg "room3" (VStr "zed")) 9)) "Z"
  = (two_rooms, [EmitRoomExcept "room3" "Z" (UserLeft (VStr "zed"))]).
Proof.
  assert (Hfresh : fresh_socket two_rooms "Z").
  { split; [reflexivity|].
    simpl. intros b [<- | [<- | [<- | [<- | []]]]]; discriminate. }
  exact (proj2 (session_leaves_no_trace two_rooms "Z" (msg "room3" (VStr "zed")) 8 9
                  Hfresh eq_refl eq_refl)).
Defined.

(** * The periodic sweep *)

Lemma filter_split_length {A : Type} (f : A -> bool) (l : list A) :
  (length (filter f l) + length (filter (fun x => negb (f x)) l) = length l)%nat.
Proof.
  induction l as [|x r IH]; simpl; [reflexivity|].
  destruct (f x); simpl; lia.
Qed.

Lemma filter_idem {A : Type} (f : A -> bool) (l : list A) :
  filter f (filter f l) = filter f l.
Proof.
  induction l as [|x r IH]; simpl; [reflexivity|].
  destruct (f x) eqn:E; simpl; [rewrite E; f_equal|]; exact IH.
Qed.

(** X15.  The sweep of empty channels, on any state: the directory it
    leaves is the old one with the entries of empty member maps taken out,
    so the kept channels keep their records and their order; it leaves the
    registry and the rooms alone, reports the number of empty channels it
    dropped, changes nothing when no channel is empty, and finds nothing
    when run again. *)
Theorem sweep_removes_exactly_empty (st : State) :
  let r := sweep_empty_channels st in
  channels (fst r)
    = filter (fun e => match c_users (snd e) with [] => false | _ :: _ => true end)
             (channels st) /\
  (forall c ch,
     In (c, ch) (channels (fst r)) <-> In (c, ch) (channels st) /\ c_users ch <> []) /\
  ((forall c ch, In (c, ch) (channels st) -> c_users ch <> []) -> fst r = st) /\
  users (fst r) = users st /\
  rooms (fst r) = rooms st /\
  snd r = Z.of_nat (length (filter (fun e => JsMap.size (c_users (snd e)) =? 0)
                                   (channels st))) /\
  sweep_empty_channels (fst r) = (fst r, 0).
Proof.
  intros r. unfold r, sweep_empty_channels. simpl.
  assert (Hsame : forall l : JsMap.t Channel,
            filter (fun e => negb (JsMap.size (c_users (snd e)) =? 0)) l
            = filter (fun e => match c_users (snd e) with [] => false | _ :: _ => true end) l).
  { intros l. apply filter_ext. intros [c ch]. simpl. now destruct (c_users ch). }
  split; [apply Hsame|]. split.
  { intros c ch. rewrite filter_In. simpl. split; intros [Hin H]; split; try assumption.
    - intros Hnil. rewrite Hnil in H. discriminate.
    - destruct (JsMap.size (c_users ch) =? 0) eqn:E; [|reflexivity].
      apply size_zero_iff in E. contradiction. }
  split.
  { intros Hne. destruct st as [chs us rs]. simpl in *. f_equal.
    induction chs as [|[c ch] l IH]; simpl; [reflexivity|].
    destruct (JsMap.size (c_users ch) =? 0) eqn:Esz; simpl.
    - apply size_zero_iff in Esz. exfalso. apply (Hne c ch); [now left | assumption].
    - f_equal. apply IH. intros c' ch' Hin. apply (Hne c' ch'). now right. }
  split; [reflexivity|]. split; [reflexivity|]. split.
  - unfold JsMap.size.
    pose proof (filter_split_length
                  (fun e : string * Channel => negb (JsMap.size (c_users (snd e)) =? 0))
                  (channels st)) as H.
    cbv beta in H.
    assert (Heq : filter (fun x : string * Channel =>
                            negb (negb (JsMap.size (c_users (snd x)) =? 0))) (channels st)
                  = filter (fun e => JsMap.size (c_users (snd e)) =? 0) (channels st)).
    { apply filter_ext. intros x. apply negb_involutive. }
    rewrite Heq in H. unfold JsMap.size in *. lia.
  - rewrite filter_idem. f_equal. lia.
Qed.

Lemma sweep_removes_exactly_empty_witness :
  fst (sweep_empty_channels two_rooms) = two_rooms.
Proof.
  destruct (sweep_removes_exactly_empty two_rooms) as (_ & _ & Hid & _).
  apply Hid. simpl. intros c ch [H | [H | []]]; inversion H; subst; discriminate.
Defined.

(** * The message counter *)

Lemma increment_get (chs : JsMap.t Channel) (c c' : string) :
  JsMap.get (increment_messageCount chs c) c'
  = match JsMap.get chs c' with
    | Some ch =>
        Some (if String.eqb c' c
              then mkChannel (c_id ch) (c_users ch) (c_createdAt ch) (c_messageCount ch + 1)
              else ch)
    | None => None
    end.
Proof.
  unfold increment_messageCount.
  destruct (String.eqb c' c) eqn:E.
  - apply String.eqb_eq in E. subst c'.
    destruct (JsMap.get chs c) as [ch|] eqn:Ec; [apply get_set_eq | now rewrite Ec].
  - apply String.eqb_neq in E.
    destruct (JsMap.get chs c) as [ch|] eqn:Ec.
    + rewrite get_set_ne by congruence. now destruct (JsMap.get chs c').
    + now destruct (JsMap.get chs c').
Qed.

Lemma increment_keys (chs : JsMap.t Channel) (c : string) :
  JsMap.keys (increment_messageCount chs c) = JsMap.keys chs.
Proof.
  unfold increment_messageCount.
  destruct (JsMap.get chs c) as [ch|] eqn:Ec; [|reflexivity].
  now apply keys_set_present with (v0 := ch).
Qed.

(** X16.  What counts as a relayed message.  In the globally addressed iteration a
    [transmission-start] adds exactly one to the counter of the named
    channel when it exists, and [transmission-end] counts nothing; in the
    channel-scoped iteration [audio-data] and [audio-url] add one and the
    transmission signals count nothing.  Counting never touches the member
    maps, the channel ids, the other counters, the registry or the rooms,
    and a relay to a channel that is not in the directory counts nowhere. *)
Theorem relays_count_messages (st : State) (sid : string) (p : Payload) (now : Z) :
  (forall r,
     r = GlobalAddr.transmission_start st sid p now \/
     r = ChannelScoped.audio_data st sid p now \/
     r = ChannelScoped.audio_url st sid p now ->
     (forall c,
        message_count (fst r) c
          = if String.eqb c (channelId p) && JsMap.has (channels st) (channelId p)
            then message_count st c + 1 else message_count st c) /\
     (forall c, members (fst r) c = members st c) /\
     JsMap.keys (channels (fst r)) = JsMap.keys (channels st) /\
     users (fst r) = users st /\ rooms (fst r) = rooms st) /\
  fst (GlobalAddr.transmission_end st sid p now) = st /\
  fst (ChannelScoped.transmission_start st sid p now) = st /\
  fst (ChannelScoped.transmission_end st sid p now) = st.
Proof.
  split; [|now repeat split].
  intros r Hr.
  assert (Hst : fst r = mkState (increment_messageCount (channels st) (channelId p))
                                (users st) (rooms st))
    by (destruct Hr as [-> | [-> | ->]]; reflexivity).
  rewrite Hst. simpl. split; [|split; [|split; [apply increment_keys | now split]]].
  - intros c. unfold message_count, JsMap.has. simpl. rewrite increment_get.
    destruct (String.eqb c (channelId p)) eqn:E.
    + apply String.eqb_eq in E. subst c.
      now destruct (JsMap.get (channels st) (channelId p)).
    + now destruct (JsMap.get (channels st) c).
  - intros c. unfold members. simpl. rewrite increment_get.
    destruct (JsMap.get (channels st) c) as [ch|]; [|reflexivity].
    now destruct (String.eqb c (channelId p)).
Qed.

Lemma fold_sum_shift (l : list Channel) (a : Z) :
  fold_left (fun sum ch => sum + (if c_messageCount ch =? 0 then 0 else c_messageCount ch)) l a
  = a + fold_left
          (fun sum ch => sum + (if c_messageCount ch =? 0 then 0 else c_messageCount ch)) l 0.
Proof.
  revert a. induction l as [|x r IH]; intros a; simpl; [lia|].
  rewrite IH. rewrite (IH (if c_messageCount x =? 0 then 0 else c_messageCount x)). lia.
Qed.

Lemma or_zero (x : Z) : (if x =? 0 then 0 else x) = x.
Proof. destruct (x =? 0) eqn:E; [apply Z.eqb_eq in E; lia | reflexivity]. Qed.

Lemma totalMessages_cons (k : string) (ch : Channel) (chs : JsMap.t Channel) :
  totalMessages ((k, ch) :: chs) = c_messageCount ch + totalMessages chs.
Proof.
  unfold totalMessages. simpl. rewrite fold_sum_shift, or_zero. reflexivity.
Qed.

Lemma totalMessages_set (chs : JsMap.t Channel) (c : string) (ch0 ch1 : Channel) :
  JsMap.get chs c = Some ch0 ->
  totalMessages (JsMap.set chs c ch1)
    = totalMessages chs + c_messageCount ch1 - c_messageCount ch0.
Proof.
  induction chs as [|[k ch] r IH]; [discriminate|].
  cbn [JsMap.get JsMap.set]. destruct (String.eqb k c).
  - intros H. inversion H. subst ch0. rewrite !totalMessages_cons. lia.
  - intros H. rewrite !totalMessages_cons, (IH H). lia.
Qed.

(** X17.  The total the statistics timer reports is the sum of the channels'
    counters, and one [messageCount++] on a channel of the directory raises
    it by exactly one; on an unknown channel it stays. *)
Theorem totalMessages_after_increment (chs : JsMap.t Channel) (c : string) :
  totalMessages chs = fold_right (fun ch sum => c_messageCount ch + sum) 0 (JsMap.values chs) /\
  totalMessages (increment_messageCount chs c)
    = if JsMap.has chs c then totalMessages chs + 1 else totalMessages chs.
Proof.
  split.
  - induction chs as [|[k ch] r IH]; [reflexivity|].
    rewrite totalMessages_cons, IH. reflexivity.
  - unfold increment_messageCount, JsMap.has.
    destruct (JsMap.get chs c) as [ch0|] eqn:E; [|reflexivity].
    rewrite (totalMessages_set chs c ch0 _ E). simpl. lia.
Qed.

(** * Audio relays and the connection request *)

(** X18.  [audio-data] and [audio-url] broadcast to the channel's room minus the
    sender.  The event keeps the client's timestamp when the payload has a
    non-zero one, and is stamped with the server's clock when the timestamp
    is absent or zero. *)
Theorem audio_relay_stamp (st : State) (sid : string) (p : Payload) (now : Z) :
  let stamp := match timestamp p with
               | None => now
               | Some 0 => now
               | Some t => t
               end in
  snd (ChannelScoped.audio_data st sid p now)
    = [EmitRoomExcept (channelId p) sid (AudioReceived (userId p) (body p) stamp)] /\
  snd (ChannelScoped.audio_url st sid p now)
    = [EmitRoomExcept (channelId p) sid (AudioMessage (userId p) (body p) stamp)] /\
  forall s,
    let hears := in_room (rooms st) (channelId p) s && negb (String.eqb s sid) in
    delivered (ChannelScoped.audio_data st sid p now) s
      = (if hears then [AudioReceived (userId p) (body p) stamp] else []) /\
    delivered (ChannelScoped.audio_url st sid p now) s
      = (if hears then [AudioMessage (userId p) (body p) stamp] else []).
Proof.
  intros stamp.
  assert (Hs : timestamp_or_now (timestamp p) now = stamp).
  { unfold timestamp_or_now, stamp. destruct (timestamp p) as [[| |]|]; reflexivity. }
  unfold ChannelScoped.audio_data, ChannelScoped.audio_url. rewrite Hs.
  split; [reflexivity|]. split; [reflexivity|].
  intros s. unfold delivered. simpl. split; apply received_room_except.
Qed.



(** * The maps keep unique keys *)

Section UniqueKeys.
Context {V : Type}.
Implicit Types (m : JsMap.t V) (k : string) (v : V).

Lemma get_None_keys m k : JsMap.get m k = None <-> ~ In k (JsMap.keys m).
Proof.
  unfold JsMap.keys. induction m as [|[k' v'] r IH]; simpl; [tauto|].
  destruct (String.eqb k' k) eqn:E.
  - apply String.eqb_eq in E. subst k'. split; [discriminate | tauto].
  - apply String.eqb_neq in E. rewrite IH. tauto.
Qed.

Lemma unique_set m k v : unique_keys m -> unique_keys (JsMap.set m k v).
Proof.
  unfold unique_keys. intros Hnd.
  destruct (JsMap.get m k) as [v0|] eqn:E.
  - now rewrite (keys_set_present m k v v0 E).
  - rewrite (set_absent m k v E). unfold JsMap.keys. rewrite map_app. simpl.
    apply get_None_keys in E.
    apply NoDup_rev in Hnd. rewrite <- (rev_involutive (map fst m ++ [k])).
    apply NoDup_rev. rewrite rev_app_distr. simpl. constructor; [|assumption].
    intros Hin. apply E. now apply in_rev.
Qed.

Lemma keys_filter_incl (f : string * V -> bool) m k :
  In k (JsMap.keys (filter f m)) -> In k (JsMap.keys m).
Proof.
  unfold JsMap.keys. rewrite !in_map_iff. intros (e & He & Hin).
  apply filter_In in Hin. exists e. tauto.
Qed.

Lemma unique_filter (f : string * V -> bool) m :
  unique_keys m -> unique_keys (filter f m).
Proof.
  unfold unique_keys. induction m as [|[k v] r IH]; simpl; intros Hnd; [constructor|].
  inversion Hnd as [|? ? Hnot Hrest]. subst.
  destruct (f (k, v)); simpl; [|now apply IH].
  constructor; [|now apply IH].
  intros Hin. apply Hnot. now apply keys_filter_incl in Hin.
Qed.

Lemma delete_as_filter m k :
  JsMap.delete m k = filter (fun e => negb (String.eqb (fst e) k)) m.
Proof.
  induction m as [|[k' v'] r IH]; simpl; [reflexivity|].
  destruct (String.eqb k' k); simpl; now rewrite IH.
Qed.

Lemma unique_delete m k : unique_keys m -> unique_keys (JsMap.delete m k).
Proof. rewrite delete_as_filter. apply unique_filter. Qed.

Lemma unique_In_get m k v : unique_keys m -> In (k, v) m -> JsMap.get m k = Some v.
Proof.
  unfold unique_keys, JsMap.keys.
  induction m as [|[k' v'] r IH]; simpl; intros Hnd Hin; [contradiction|].
  inversion Hnd as [|? ? Hnot Hrest]. subst.
  destruct Hin as [Heq | Hin].
  - inversion Heq. subst. now rewrite String.eqb_refl.
  - destruct (String.eqb k' k) eqn:E; [|now apply IH].
    apply String.eqb_eq in E. subst k'. exfalso. apply Hnot.
    apply in_map_iff. now exists (k, v).
Qed.
End UniqueKeys.

Lemma WellKeyed_init : WellKeyed init.
Proof. repeat split; try constructor. intros c ch []. Qed.

Lemma increment_In (chs : JsMap.t Channel) (c c' : string) (ch' : Channel) :
  In (c', ch') (increment_messageCount chs c) ->
  exists ch, In (c', ch) chs /\ c_users ch' = c_users ch.
Proof.
  unfold increment_messageCount.
  destruct (JsMap.get chs c) as [ch|] eqn:E; [|intros H; now exists ch'].
  intros H. apply In_set in H. destruct H as [[-> ->] | H]; [|now exists ch'].
  exists ch. split; [now apply get_Some_In | reflexivity].
Qed.

Lemma join_channel_WellKeyed (st : State) (sid : string) (p : Payload) (now : Z) :
  WellKeyed st -> WellKeyed (fst (join_channel st sid p now)).
Proof.
  intros (Hc & Hu & Hm). split; [|split].
  - rewrite join_channel_channels. now apply unique_set.
  - rewrite join_channel_users.
    destruct (JsMap.get (users st) sid); [now apply unique_set | assumption].
  - intros c ch Hin. rewrite join_channel_channels in Hin.
    apply In_set in Hin. destruct Hin as [[-> ->] | Hin]; [|now apply (Hm c)].
    destruct (JsMap.get (channels st) (channelId p)) as [channel|] eqn:E; simpl.
    + apply unique_set. apply (Hm (channelId p)). now apply get_Some_In.
    + unfold unique_keys. simpl. constructor; [intros [] | constructor].
Qed.

Lemma remove_member_WellKeyed (st : State) (c sid : string) (us' : JsMap.t User) (rs' : Rooms) :
  WellKeyed st -> unique_keys us' ->
  WellKeyed (mkState (remove_member (channels st) c sid) us' rs').
Proof.
  intros (Hc & Hu & Hm) Hu'. split; [|split]; simpl; [|assumption|].
  - unfold remove_member. destruct (JsMap.get (channels st) c); [|assumption].
    cbn [c_users]. destruct (JsMap.size _ =? 0);
      [apply unique_delete|]; now apply unique_set.
  - intros c' ch' Hin. destruct (rm_In _ _ _ _ _ Hin) as [Hold | (ch & Hch & Heq & _)].
    + now apply (Hm c').
    + rewrite Heq. apply unique_delete. now apply (Hm c').
Qed.

Lemma leave_channel_WellKeyed (st : State) (sid : string) (p : Payload) :
  WellKeyed st -> WellKeyed (fst (leave_channel st sid p)).
Proof.
  intros HW.
  replace (fst (leave_channel st sid p))
    with (mkState (remove_member (channels st) (channelId p) sid)
                  (users (fst (leave_channel st sid p)))
                  (rooms (fst (leave_channel st sid p))))
    by (apply state_ext; simpl; [now rewrite leave_channel_channels | reflexivity | reflexivity]).
  apply remove_member_WellKeyed; [assumption|].
  rewrite leave_channel_users. destruct HW as (_ & Hu & _).
  destruct (JsMap.get (users st) sid); [now apply unique_set | assumption].
Qed.

Lemma disconnect_WellKeyed (st : State) (sid : string) :
  WellKeyed st -> WellKeyed (fst (disconnect st sid)).
Proof.
  intros HW. unfold disconnect.
  remember (mkState (channels st) (users st) (socket_leave_all (rooms st) sid)) as st0.
  assert (HW0 : WellKeyed st0) by (subst st0; exact HW).
  clear HW Heqst0.
  assert (Hu' : unique_keys (JsMap.delete (users st0) sid))
    by (apply unique_delete; now destruct HW0 as (_ & Hu & _)).
  replace (fst (on_disconnect st0 sid))
    with (mkState (channels (fst (on_disconnect st0 sid)))
                  (JsMap.delete (users st0) sid)
                  (rooms (fst (on_disconnect st0 sid))))
    by (apply state_ext; simpl; [reflexivity | now rewrite on_disconnect_users | reflexivity]).
  rewrite on_disconnect_channels.
  destruct (JsMap.get (users st0) sid) as [user|];
    [destruct (u_currentChannel user) as [c|]; [destruct (truthy_str c)|]|].
  all: try (now apply remove_member_WellKeyed).
  all: destruct HW0 as (Hcs & _ & Hm); now repeat split.
Qed.

Lemma step_common_WellKeyed (st : State) :
  WellKeyed st ->
  (forall sid now, WellKeyed (fst (connection st sid now))) /\
  (forall c, WellKeyed (mkState (increment_messageCount (channels st) c)
                                (users st) (rooms st))) /\
  WellKeyed (fst (sweep_empty_channels st)).
Proof.
  intros (Hc & Hu & Hm). split; [|split].
  - intros sid now. unfold connection. repeat split; simpl;
      [assumption | now apply unique_set | assumption].
  - intros c. repeat split; simpl; [|assumption|].
    + unfold unique_keys. now rewrite increment_keys.
    + intros c' ch' Hin. destruct (increment_In _ _ _ _ Hin) as (ch & Hch & Heq).
      rewrite Heq. now apply (Hm c').
  - unfold sweep_empty_channels. repeat split; simpl;
      [now apply unique_filter | assumption |].
    intros c ch Hin. apply filter_In in Hin. now apply (Hm c).
Qed.

Lemma GlobalAddr_run_WellKeyed (evs : list GlobalAddr.input) (st : State) :
  WellKeyed st -> WellKeyed (GlobalAddr.run st evs).
Proof.
  revert st. unfold GlobalAddr.run.
  induction evs as [|i evs IH]; simpl; intros st HW; [assumption|].
  apply IH. destruct (step_common_WellKeyed st HW) as (Hconn & Hinc & Hsweep).
  destruct i; simpl;
    try assumption;
    try apply Hconn; try apply Hinc;
    try (now apply join_channel_WellKeyed);
    try (now apply leave_channel_WellKeyed);
    try (now apply disconnect_WellKeyed).
  - unfold GlobalAddr.webrtc_offer.
    destruct (GlobalAddr.findSocketIdByUserId (users st) (to p)) as [t|];
      [destruct (truthy_str t)|]; assumption.
  - unfold GlobalAddr.webrtc_answer.
    destruct (GlobalAddr.findSocketIdByUserId (users st) (to p)) as [t|];
      [destruct (truthy_str t)|]; assumption.
  - unfold GlobalAddr.ice_candidate.
    destruct (GlobalAddr.findSocketIdByUserId (users st) (to p)) as [t|];
      [destruct (truthy_str t)|]; assumption.
  - unfold get_channel_users.
    destruct (JsMap.get (channels st) (channelId p)); assumption.
Qed.

Lemma ChannelScoped_run_WellKeyed (evs : list ChannelScoped.input) (st : State) :
  WellKeyed st -> WellKeyed (ChannelScoped.run st evs).
Proof.
  revert st. unfold ChannelScoped.run.
  induction evs as [|i evs IH]; simpl; intros st HW; [assumption|].
  apply IH. destruct (step_common_WellKeyed st HW) as (Hconn & Hinc & Hsweep).
  destruct i; simpl;
    try assumption;
    try apply Hconn; try apply Hinc;
    try (now apply join_channel_WellKeyed);
    try (now apply leave_channel_WellKeyed);
    try (now apply disconnect_WellKeyed).
  - unfold get_channel_users.
    destruct (JsMap.get (channels st) (channelId p)); assumption.
  - unfold ChannelScoped.webrtc_answer.
    destruct (JsMap.get (channels st) (channelId p)) as [ch|];
      [destruct (ChannelScoped.find_target ch (targetUserId p))|]; assumption.
  - unfold ChannelScoped.webrtc_ice_candidate.
    destruct (truthy (targetUserId p)); [|assumption].
    destruct (JsMap.get (channels st) (channelId p)) as [ch|];
      [destruct (ChannelScoped.find_target ch (targetUserId p))|]; assumption.
  - unfold ChannelScoped.request_webrtc_connection.
    destruct (JsMap.get (channels st) (channelId p)) as [ch|];
      [destruct (ChannelScoped.find_target ch (targetUserId p))|]; assumption.
Qed.

(** X20.  In every reachable state of either iteration, no channel id, no
    registered socket id and no member of a channel occurs twice, however
    often a connection joins, and every membership record carries the
    socket id it is stored under. *)
Theorem reachable_maps_are_maps :
  (forall evs, let st := GlobalAddr.run init evs in
     WellKeyed st /\
     forall c k m, In (k, m) (members st c) -> m_socketId m = k) /\
  (forall evs, let st := ChannelScoped.run init evs in
     WellKeyed st /\
     forall c k m, In (k, m) (members st c) -> m_socketId m = k).
Proof.
  split; intros evs st; split.
  - apply GlobalAddr_run_WellKeyed, WellKeyed_init.
  - intros c. apply Inv_members_keyed, GlobalAddr_run_Inv, Inv_init.
  - apply ChannelScoped_run_WellKeyed, WellKeyed_init.
  - intros c. apply Inv_members_keyed, ChannelScoped_run_Inv, Inv_init.
Qed.

(** * Empty channels never stay *)

(** X14.  In every reachable state of either iteration each channel of the
    directory has at least one member, so the periodic sweep finds nothing
    to clean: channels are deleted by the handler that empties them. *)
Theorem reachable_channels_have_members :
  (forall evs, let st := GlobalAddr.run init evs in
     (forall c, JsMap.has (channels st) c = true -> 1 <= member_count st c) /\
     sweep_empty_channels st = (st, 0)) /\
  (forall evs, let st := ChannelScoped.run init evs in
     (forall c, JsMap.has (channels st) c = true -> 1 <= member_count st c) /\
     sweep_empty_channels st = (st, 0)).
Proof.
  assert (H : forall st, Inv st ->
            (forall c, JsMap.has (channels st) c = true -> 1 <= member_count st c) /\
            sweep_empty_channels st = (st, 0)).
  { intros st HI. split; [|now apply sweep_empty_channels_idle].
    intros c Hc. unfold member_count, members, JsMap.has in *.
    destruct (JsMap.get (channels st) c) as [ch|] eqn:E; [|discriminate].
    apply get_Some_In in E. pose proof (inv_nonempty st HI c ch E) as Hne.
    unfold JsMap.size. destruct (c_users ch); [contradiction | simpl; lia]. }
  split; intros evs st; apply H.
  - apply GlobalAddr_run_Inv, Inv_init.
  - apply ChannelScoped_run_Inv, Inv_init.
Qed.

(** * The channel listing *)

Lemma map_socketId_keys (l : JsMap.t Member) :
  (forall k m, In (k, m) l -> m_socketId m = k) ->
  map m_socketId (JsMap.values l) = JsMap.keys l.
Proof.
  unfold JsMap.values, JsMap.keys.
  induction l as [|[k m] r IH]; simpl; intros H; [reflexivity|].
  rewrite (H k m (or_introl eq_refl)). f_equal. apply IH.
  intros k' m' Hin. apply H. now right.
Qed.

Lemma listing_of_state (st : State) :
  Inv st -> WellKeyed st ->
  map i_id (channelList_global st) = JsMap.keys (channels st) /\
  NoDup (map i_id (channelList_global st)) /\
  Z.of_nat (length (channelList_global st)) = fst (status_counts st) /\
  (forall info, In info (channelList_global st) ->
     i_userCount info = Z.of_nat (length (i_users info)) /\
     1 <= i_userCount info /\
     map (fun u => snd (fst u)) (i_users info) = JsMap.keys (members st (i_id info)) /\
     map (fun u => fst (fst u)) (i_users info)
       = map m_userId (JsMap.values (members st (i_id info)))) /\
  channelList_scoped st
    = map (fun info =>
             mkChannelInfo (i_id info) (i_userCount info)
               (map (fun u => (fst (fst u), snd u)) (i_users info)))
          (channelList_global st).
Proof.
  intros HI (Hc & _ & _).
  assert (Hids : map i_id (channelList_global st) = JsMap.keys (channels st)).
  { unfold channelList_global, JsMap.keys. rewrite map_map. reflexivity. }
  split; [exact Hids|]. split; [rewrite Hids; exact Hc|]. split.
  { unfold channelList_global, status_counts, JsMap.size. simpl.
    now rewrite length_map. }
  split.
  - intros info Hin. unfold channelList_global in Hin.
    apply in_map_iff in Hin. destruct Hin as ([c ch] & <- & Hin). simpl.
    assert (Hm : members st c = c_users ch).
    { unfold members. now rewrite (unique_In_get _ _ _ Hc Hin). }
    rewrite Hm. split; [|split; [|split]].
    + unfold JsMap.size, JsMap.values. now rewrite !length_map.
    + pose proof (inv_nonempty st HI c ch Hin) as Hne.
      unfold JsMap.size. destruct (c_users ch); [contradiction | simpl; lia].
    + rewrite map_map. simpl. apply map_socketId_keys.
      intros k m Hkm. now apply (inv_keyed st HI c ch).
    + rewrite map_map. reflexivity.
  - unfold channelList_scoped, channelList_global. rewrite map_map.
    apply map_ext. intros [c ch]. simpl. f_equal. now rewrite map_map.
Qed.

(** X21.  [GET /channels] in a reachable state: the listing has one entry per
    channel id of the directory, in directory order and without repeats, as
    many entries as the channel count that [GET /] reports; each entry's
    [userCount] is the length of its user list and at least 1; the user
    list is the channel's member map, socket ids and identities in
    enumeration order.  The channel-scoped listing is the same listing
    without the socket ids. *)
Theorem channels_listing :
  (forall evs, let st := GlobalAddr.run init evs in
     map i_id (channelList_global st) = JsMap.keys (channels st) /\
     NoDup (map i_id (channelList_global st)) /\
     Z.of_nat (length (channelList_global st)) = fst (status_counts st) /\
     (forall info, In info (channelList_global st) ->
        i_userCount info = Z.of_nat (length (i_users info)) /\
        1 <= i_userCount info /\
        map (fun u => snd (fst u)) (i_users info) = JsMap.keys (members st (i_id info)) /\
        map (fun u => fst (fst u)) (i_users info)
          = map m_userId (JsMap.values (members st (i_id info))))) /\
  (forall evs, let st := ChannelScoped.run init evs in
     map i_id (channelList_scoped st) = JsMap.keys (channels st) /\
     Z.of_nat (length (channelList_scoped st)) = fst (status_counts st) /\
     (forall info, In info (channelList_scoped st) ->
        i_userCount info = Z.of_nat (length (i_users info)) /\
        1 <= i_userCount info /\
        map fst (i_users info) = map m_userId (JsMap.values (members st (i_id info))))).
Proof.
  split; intros evs st.
  - assert (HI : Inv st) by apply GlobalAddr_run_Inv, Inv_init.
    assert (HW : WellKeyed st) by apply GlobalAddr_run_WellKeyed, WellKeyed_init.
    destruct (listing_of_state st HI HW) as (H1 & H2 & H3 & H4 & _).
    split; [exact H1|]. split; [exact H2|]. split; [exact H3 | exact H4].
  - assert (HI : Inv st) by apply ChannelScoped_run_Inv, Inv_init.
    assert (HW : WellKeyed st) by apply ChannelScoped_run_WellKeyed, WellKeyed_init.
    destruct (listing_of_state st HI HW) as (H1 & _ & H3 & H4 & H5).
    rewrite H5. split; [|split].
    + rewrite map_map. simpl. exact H1.
    + rewrite length_map. exact H3.
    + intros info Hin. apply in_map_iff in Hin. destruct Hin as (g & <- & Hg).
      destruct (H4 g Hg) as (Ha & Hb & _ & Hd). simpl.
      rewrite length_map. split; [exact Ha|]. split; [exact Hb|].
      rewrite map_map. simpl. exact Hd.
Qed.

(** * Witnesses of the join and disconnect lemmas *)

Lemma join_snapshot_and_notifications_witness :
  let r := join_channel two_rooms "A" (msg "room2" (VStr "userA")) 9 in
  snd r = [EmitSelf "A" (ChannelUsers [VStr "userB"]);
           EmitRoomExcept "room2" "A" (UserJoined (VStr "userA"))] /\
  delivered r "A" = [ChannelUsers [VStr "userB"]] /\
  delivered r "B" = [UserJoined (VStr "userA")].
Proof.
  assert (Hkey : forall k m,
            In (k, m) (members two_rooms (channelId (msg "room2" (VStr "userA")))) ->
            m_socketId m = k).
  { simpl. intros k m [H | []]. now inversion H. }
  destruct (join_snapshot_and_notifications two_rooms "A" (msg "room2" (VStr "userA")) 9
              Hkey eq_refl) as (Hout & _ & Hself & Hothers).
  split; [exact Hout|]. split; [exact Hself|].
  exact (Hothers "B" eq_refl eq_refl).
Defined.

Lemma disconnect_current_channel_witness :
  let r := disconnect three_in_room1 "B" in
  is_member (fst r) "room1" "B" = false /\
  snd r = [EmitRoomExcept "room1" "B" (UserLeft (VStr "userB"))] /\
  delivered r "A" = [UserLeft (VStr "userB")] /\
  JsMap.get (users (fst r)) "B" = None.
Proof.
  destruct (disconnect_current_channel three_in_room1 "B"
              (mkUser "B" 2 (Some "room1") (VStr "userB")) "room1"
              (mkChannel "room1"
                 [("A", mkMember (VStr "userA") "A" 4);
                  ("B", mkMember (VStr "userB") "B" 5);
                  ("C", mkMember (VStr "userC") "C" 6)] 4 0)
              eq_refl eq_refl eq_refl eq_refl)
    as (Hgone & _ & Hout & Hd & _ & Hreg).
  split; [exact Hgone|]. split; [exact Hout|]. split; [|exact Hreg].
  apply (Hd "A" eq_refl). discriminate.
Defined.

(** * Who can hear a channel *)

Lemma In_socket_join_inv (rs : Rooms) (sid room : string) (b : string * string) :
  In b (socket_join rs sid room) -> In b rs \/ b = (room, sid).
Proof.
  unfold socket_join. destruct (bound rs room sid); [now left|].
  intros H. apply in_app_or in H. destruct H as [H | [H | []]]; [now left | now right].
Qed.

Lemma is_member_rm_kept (st : State) (c0 sid c k : string) (us' : JsMap.t User) (rs' : Rooms) :
  is_member st c k = true ->
  (k <> sid \/ c <> c0) ->
  is_member (mkState (remove_member (channels st) c0 sid) us' rs') c k = true.
Proof.
  intros Hm Hor. apply is_member_iff in Hm. destruct Hm as (ch & Hch & Hk).
  apply is_member_iff. simpl.
  destruct (string_dec k sid) as [-> | Hne].
  - destruct Hor as [Hc | Hc]; [now elim Hc|].
    exists ch. rewrite rm_get_other by assumption. now split.
  - now apply rm_member_kept with (ch := ch).
Qed.

Lemma join_channel_BoundAreMembers (st : State) (sid : string) (p : Payload) (now : Z) :
  BoundAreMembers st -> BoundAreMembers (fst (join_channel st sid p now)).
Proof.
  intros HB c k Hin Hne. rewrite join_channel_rooms in Hin.
  apply is_member_get.
  destruct (In_socket_join_inv _ _ _ _ Hin) as [Hold | Hnew].
  - pose proof (HB c k Hold Hne) as Hm. apply is_member_get in Hm.
    destruct (string_dec c (channelId p)) as [-> | Hc].
    + rewrite join_channel_members.
      destruct (string_dec sid k) as [-> | Hk];
        [rewrite get_set_eq; discriminate | now rewrite get_set_ne].
    + now rewrite join_channel_members_other.
  - inversion Hnew. subst. rewrite join_channel_members, get_set_eq. discriminate.
Qed.

Lemma leave_channel_BoundAreMembers (st : State) (sid : string) (p : Payload) :
  BoundAreMembers st -> BoundAreMembers (fst (leave_channel st sid p)).
Proof.
  intros HB c k Hin Hne.
  destruct (JsMap.get (channels st) (channelId p)) as [channel|] eqn:Ech.
  - rewrite (leave_channel_rooms st sid p channel Ech) in Hin.
    unfold socket_leave in Hin. apply filter_In in Hin. destruct Hin as [Hin Hkeep].
    simpl in Hkeep. apply negb_true_iff, andb_false_iff in Hkeep.
    replace (fst (leave_channel st sid p))
      with (mkState (remove_member (channels st) (channelId p) sid)
                    (users (fst (leave_channel st sid p)))
                    (rooms (fst (leave_channel st sid p))))
      by (apply state_ext; simpl;
          [now rewrite leave_channel_channels | reflexivity | reflexivity]).
    apply is_member_rm_kept; [now apply HB|].
    destruct Hkeep as [H | H]; apply String.eqb_neq in H; [now right | now left].
  - assert (Hsame : channels (fst (leave_channel st sid p)) = channels st
                    /\ rooms (fst (leave_channel st sid p)) = rooms st)
      by (unfold leave_channel; now rewrite Ech).
    destruct Hsame as [Hc Hr]. rewrite Hr in Hin.
    pose proof (HB c k Hin Hne) as Hm.
    unfold is_member, members in *. now rewrite Hc.
Qed.

Lemma disconnect_BoundAreMembers (st : State) (sid : string) :
  BoundAreMembers st -> BoundAreMembers (fst (disconnect st sid)).
Proof.
  intros HB c k Hin Hne. unfold disconnect in *.
  remember (mkState (channels st) (users st) (socket_leave_all (rooms st) sid)) as st0.
  rewrite on_disconnect_rooms in Hin.
  assert (Hold : In (c, k) (rooms st) /\ k <> sid).
  { subst st0. simpl in Hin. unfold socket_leave_all in Hin.
    apply filter_In in Hin. destruct Hin as [Hin Hk]. simpl in Hk.
    apply negb_true_iff, String.eqb_neq in Hk. now split. }
  destruct Hold as [Hold Hk].
  assert (Hm : is_member st0 c k = true) by (subst st0; now apply HB).
  replace (fst (on_disconnect st0 sid))
    with (mkState (channels (fst (on_disconnect st0 sid)))
                  (users (fst (on_disconnect st0 sid)))
                  (rooms (fst (on_disconnect st0 sid))))
    by (now apply state_ext).
  rewrite on_disconnect_channels.
  destruct (JsMap.get (users st0) sid) as [user|];
    [destruct (u_currentChannel user) as [c0|]; [destruct (truthy_str c0)|]|].
  all: try (apply is_member_rm_kept; [exact Hm | now left]).
  all: exact Hm.
Qed.

Lemma step_common_BoundAreMembers (st : State) :
  Inv st -> BoundAreMembers st ->
  (forall sid now, BoundAreMembers (fst (connection st sid now))) /\
  (forall c, BoundAreMembers (mkState (increment_messageCount (channels st) c)
                                      (users st) (rooms st))) /\
  BoundAreMembers (fst (sweep_empty_channels st)).
Proof.
  intros HI HB. split; [|split].
  - intros sid now c k Hin Hne. unfold connection in Hin. simpl in Hin.
    destruct (In_socket_join_inv _ _ _ _ Hin) as [Hold | Hnew].
    + exact (HB c k Hold Hne).
    + inversion Hnew. subst. now elim Hne.
  - intros c0 c k Hin Hne. simpl in Hin. pose proof (HB c k Hin Hne) as Hm.
    unfold is_member, members in *. simpl. rewrite increment_get.
    destruct (JsMap.get (channels st) c) as [ch|]; [|exact Hm].
    now destruct (String.eqb c c0).
  - rewrite (sweep_empty_channels_idle st HI). exact HB.
Qed.

Lemma GlobalAddr_run_BoundAreMembers (evs : list GlobalAddr.input) (st : State) :
  Inv st -> BoundAreMembers st -> BoundAreMembers (GlobalAddr.run st evs).
Proof.
  revert st. induction evs as [|i evs IH]; intros st HI HB; [assumption|].
  change (GlobalAddr.run st (i :: evs))
    with (GlobalAddr.run (fst (GlobalAddr.step st i)) evs).
  apply IH.
  - exact (GlobalAddr_run_Inv [i] st HI).
  - destruct (step_common_BoundAreMembers st HI HB) as (Hconn & Hinc & Hsweep).
    destruct i; simpl;
      try assumption;
      try apply Hconn; try apply Hinc;
      try (now apply join_channel_BoundAreMembers);
      try (now apply leave_channel_BoundAreMembers);
      try (now apply disconnect_BoundAreMembers).
    + unfold GlobalAddr.webrtc_offer.
      destruct (GlobalAddr.findSocketIdByUserId (users st) (to p)) as [t|];
        [destruct (truthy_str t)|]; assumption.
    + unfold GlobalAddr.webrtc_answer.
      destruct (GlobalAddr.findSocketIdByUserId (users st) (to p)) as [t|];
        [destruct (truthy_str t)|]; assumption.
    + unfold GlobalAddr.ice_candidate.
      destruct (GlobalAddr.findSocketIdByUserId (users st) (to p)) as [t|];
        [destruct (truthy_str t)|]; assumption.
    + unfold get_channel_users.
      destruct (JsMap.get (channels st) (channelId p)); assumption.
Qed.

Lemma ChannelScoped_run_BoundAreMembers (evs : list ChannelScoped.input) (st : State) :
  Inv st -> BoundAreMembers st -> BoundAreMembers (ChannelScoped.run st evs).
Proof.
  revert st. induction evs as [|i evs IH]; intros st HI HB; [assumption|].
  change (ChannelScoped.run st (i :: evs))
    with (ChannelScoped.run (fst (ChannelScoped.step st i)) evs).
  apply IH.
  - exact (ChannelScoped_run_Inv [i] st HI).
  - destruct (step_common_BoundAreMembers st HI HB) as (Hconn & Hinc & Hsweep).
    destruct i; simpl;
      try assumption;
      try apply Hconn; try apply Hinc;
      try (now apply join_channel_BoundAreMembers);
      try (now apply leave_channel_BoundAreMembers);
      try (now apply disconnect_BoundAreMembers).
    + unfold get_channel_users.
      destruct (JsMap.get (channels st) (channelId p)); assumption.
    + unfold ChannelScoped.webrtc_answer.
      destruct (JsMap.get (channels st) (channelId p)) as [ch|];
        [destruct (ChannelScoped.find_target ch (targetUserId p))|]; assumption.
    + unfold ChannelScoped.webrtc_ice_candidate.
      destruct (truthy (targetUserId p)); [|assumption].
      destruct (JsMap.get (channels st) (channelId p)) as [ch|];
        [destruct (ChannelScoped.find_target ch (targetUserId p))|]; assumption.
    + unfold ChannelScoped.request_webrtc_connection.
      destruct (JsMap.get (channels st) (channelId p)) as [ch|];
        [destruct (ChannelScoped.find_target ch (targetUserId p))|]; assumption.
Qed.

(** X22.  Only members hear a channel.  In every reachable state of either
    iteration, a socket bound to the room of a channel id is in that
    channel's member map, unless the room is the socket's own; so whatever
    a handler broadcasts with [socket.to(channelId)] is received by members
    of that channel only (and by the socket whose id is the channel id). *)
Theorem broadcasts_reach_members_only :
  (forall evs c sender e s,
     let st := GlobalAddr.run init evs in
     In s (recipients (rooms st) (EmitRoomExcept c sender e)) ->
     s <> sender /\ (is_member st c s = true \/ s = c)) /\
  (forall evs c sender e s,
     let st := ChannelScoped.run init evs in
     In s (recipients (rooms st) (EmitRoomExcept c sender e)) ->
     s <> sender /\ (is_member st c s = true \/ s = c)).
Proof.
  assert (H : forall st c sender e s,
            BoundAreMembers st ->
            In s (recipients (rooms st) (EmitRoomExcept c sender e)) ->
            s <> sender /\ (is_member st c s = true \/ s = c)).
  { intros st c sender e s HB Hin. simpl in Hin. apply filter_In in Hin.
    destruct Hin as [Hin Hs]. apply negb_true_iff, String.eqb_neq in Hs.
    split; [assumption|].
    assert (Hb : In (c, s) (rooms st)).
    { apply in_room_iff. unfold in_room. apply existsb_exists.
      exists s. split; [assumption | apply String.eqb_refl]. }
    destruct (string_dec c s) as [-> | Hne]; [now right | left; now apply HB]. }
  assert (HB0 : BoundAreMembers init) by (intros c sid []).
  split; intros evs c sender e s st; apply H.
  - apply GlobalAddr_run_BoundAreMembers; [apply Inv_init | exact HB0].
  - apply ChannelScoped_run_BoundAreMembers; [apply Inv_init | exact HB0].
Qed.

Lemma broadcasts_reach_members_only_witness :
  is_member three_in_room1 "room1" "C" = true.
Proof.
  destruct broadcasts_reach_members_only as [_ Hscoped].
  destruct (Hscoped
              [ChannelScoped.OnConnection "A" 1;
               ChannelScoped.OnConnection "B" 2;
               ChannelScoped.OnConnection "C" 3;
               ChannelScoped.OnJoinChannel "A" (msg "room1" (VStr "userA")) 4;
               ChannelScoped.OnJoinChannel "B" (msg "room1" (VStr "userB")) 5;
               ChannelScoped.OnJoinChannel "C" (msg "room1" (VStr "userC")) 6]
              "room1" "A" (UserLeft VNull) "C") as [_ [Hm | Hc]].
  - simpl. right. now left.
  - exact Hm.
  - discriminate Hc.
Defined.

(** * Channel metadata *)

Lemma rm_get_meta (chs : JsMap.t Channel) (c0 sid c : string) (ch' : Channel) :
  JsMap.get (remove_member chs c0 sid) c = Some ch' ->
  exists ch, JsMap.get chs c = Some ch /\
             c_id ch' = c_id ch /\ c_createdAt ch' = c_createdAt ch /\
             c_messageCount ch' = c_messageCount ch.
Proof.
  destruct (string_dec c c0) as [-> | Hne].
  - unfold remove_member. destruct (JsMap.get chs c0) as [channel|] eqn:E.
    + cbn [c_users]. destruct (JsMap.size (JsMap.delete (c_users channel) sid) =? 0).
      * rewrite get_delete_eq. discriminate.
      * rewrite get_set_eq. intros H. inversion H. subst ch'. now exists channel.
    + rewrite E. discriminate.
  - rewrite rm_get_other by assumption. intros H. now exists ch'.
Qed.

Lemma on_disconnect_get_meta (st : State) (sid c : string) (ch' : Channel) :
  JsMap.get (channels (fst (on_disconnect st sid))) c = Some ch' ->
  exists ch, JsMap.get (channels st) c = Some ch /\
             c_id ch' = c_id ch /\ c_createdAt ch' = c_createdAt ch /\
             c_messageCount ch' = c_messageCount ch.
Proof.
  rewrite on_disconnect_channels.
  destruct (JsMap.get (users st) sid) as [user|];
    [destruct (u_currentChannel user) as [c0|]; [destruct (truthy_str c0)|]|].
  all: try apply rm_get_meta.
  all: intros H; now exists ch'.
Qed.

Lemma shared_steps_keep_meta (st : State) (c : string) (ch ch' : Channel) :
  JsMap.get (channels st) c = Some ch ->
  (forall sid p now,
     JsMap.get (channels (fst (join_channel st sid p now))) c = Some ch' ->
     c_id ch' = c_id ch /\ c_createdAt ch' = c_createdAt ch /\
     c_messageCount ch' = c_messageCount ch) /\
  (forall sid p,
     JsMap.get (channels (fst (leave_channel st sid p))) c = Some ch' ->
     c_id ch' = c_id ch /\ c_createdAt ch' = c_createdAt ch /\
     c_messageCount ch' = c_messageCount ch) /\
  (forall sid,
     JsMap.get (channels (fst (disconnect st sid))) c = Some ch' ->
     c_id ch' = c_id ch /\ c_createdAt ch' = c_createdAt ch /\
     c_messageCount ch' = c_messageCount ch) /\
  (forall c0,
     JsMap.get (increment_messageCount (channels st) c0) c = Some ch' ->
     c_id ch' = c_id ch /\ c_createdAt ch' = c_createdAt ch /\
     c_messageCount ch <= c_messageCount ch' <= c_messageCount ch + 1).
Proof.
  intros Hch. split; [|split; [|split]].
  - intros sid p now. rewrite join_channel_channels.
    destruct (string_dec (channelId p) c) as [<- | Hne].
    + rewrite get_set_eq, Hch. intros H. inversion H. now subst ch'.
    + rewrite get_set_ne by assumption. rewrite Hch. intros H. inversion H. now subst.
  - intros sid p. rewrite leave_channel_channels. intros H.
    destruct (rm_get_meta _ _ _ _ _ H) as (ch0 & H0 & Hm). rewrite Hch in H0.
    inversion H0. now subst.
  - intros sid. unfold disconnect. intros H.
    destruct (on_disconnect_get_meta _ _ _ _ H) as (ch0 & H0 & Hm). simpl in H0.
    rewrite Hch in H0. inversion H0. now subst.
  - intros c0. rewrite increment_get, Hch. intros H. inversion H.
    destruct (String.eqb c c0); simpl; repeat split; lia.
Qed.

(** X23.  A channel keeps its identity while it lives.  Over any single step of
    either iteration from a reachable state, a channel that is in the
    directory before and after keeps its [id] and [createdAt], and its
    [messageCount] stays or grows by one: joins, leaves and disconnects of
    its members never reset it.  A join to a channel that is not in the
    directory creates it with the payload's id, the current time and a
    counter of 0. *)
Theorem channel_metadata_is_stable :
  (forall evs i c ch ch',
     let st := GlobalAddr.run init evs in
     JsMap.get (channels st) c = Some ch ->
     JsMap.get (channels (fst (GlobalAddr.step st i))) c = Some ch' ->
     c_id ch' = c_id ch /\ c_createdAt ch' = c_createdAt ch /\
     c_messageCount ch <= c_messageCount ch' <= c_messageCount ch + 1) /\
  (forall evs i c ch ch',
     let st := ChannelScoped.run init evs in
     JsMap.get (channels st) c = Some ch ->
     JsMap.get (channels (fst (ChannelScoped.step st i))) c = Some ch' ->
     c_id ch' = c_id ch /\ c_createdAt ch' = c_createdAt ch /\
     c_messageCount ch <= c_messageCount ch' <= c_messageCount ch + 1) /\
  (forall st sid p now,
     JsMap.has (channels st) (channelId p) = false ->
     option_map (fun ch => (c_id ch, c_createdAt ch, c_messageCount ch))
       (JsMap.get (channels (fst (join_channel st sid p now))) (channelId p))
     = Some (channelId p, now, 0)).
Proof.
  assert (Hsame : forall ch ch' : Channel, Some ch = Some ch' ->
            c_id ch' = c_id ch /\ c_createdAt ch' = c_createdAt ch /\
            c_messageCount ch <= c_messageCount ch' <= c_messageCount ch + 1).
  { intros ch ch' H. inversion H. repeat split; lia. }
  assert (Hweak : forall ch ch' : Channel,
            c_id ch' = c_id ch /\ c_createdAt ch' = c_createdAt ch /\
            c_messageCount ch' = c_messageCount ch ->
            c_id ch' = c_id ch /\ c_createdAt ch' = c_createdAt ch /\
            c_messageCount ch <= c_messageCount ch' <= c_messageCount ch + 1).
  { intros ch ch' (H1 & H2 & H3). repeat split; try assumption; lia. }
  split; [|split].
  - intros evs i c ch ch' st Hch.
    assert (HI : Inv st) by apply GlobalAddr_run_Inv, Inv_init.
    destruct (shared_steps_keep_meta st c ch ch' Hch) as (Hj & Hl & Hd & Hi).
    destruct i; simpl; intros H.
    all: try (rewrite Hch in H; now apply Hsame).
    all: try (now apply Hweak, Hj with (1 := H)).
    all: try (now apply Hweak, Hl with (1 := H)).
    all: try (now apply Hweak, Hd with (1 := H)).
    all: try (now apply Hi with (1 := H)).
    + unfold GlobalAddr.webrtc_offer in H.
      destruct (GlobalAddr.findSocketIdByUserId (users st) (to p)) as [t|];
        [destruct (truthy_str t)|]; simpl in H; rewrite Hch in H; now apply Hsame.
    + unfold GlobalAddr.webrtc_answer in H.
      destruct (GlobalAddr.findSocketIdByUserId (users st) (to p)) as [t|];
        [destruct (truthy_str t)|]; simpl in H; rewrite Hch in H; now apply Hsame.
    + unfold GlobalAddr.ice_candidate in H.
      destruct (GlobalAddr.findSocketIdByUserId (users st) (to p)) as [t|];
        [destruct (truthy_str t)|]; simpl in H; rewrite Hch in H; now apply Hsame.
    + unfold get_channel_users in H.
      destruct (JsMap.get (channels st) (channelId p));
        simpl in H; rewrite Hch in H; now apply Hsame.
    + pose proof (f_equal (fun r => channels (fst r)) (sweep_empty_channels_idle st HI))
        as Hs.
      simpl in Hs. simpl in H. rewrite Hs in H.
      rewrite Hch in H. now apply Hsame.
  - intros evs i c ch ch' st Hch.
    assert (HI : Inv st) by apply ChannelScoped_run_Inv, Inv_init.
    destruct (shared_steps_keep_meta st c ch ch' Hch) as (Hj & Hl & Hd & Hi).
    destruct i; simpl; intros H.
    all: try (rewrite Hch in H; now apply Hsame).
    all: try (now apply Hweak, Hj with (1 := H)).
    all: try (now apply Hweak, Hl with (1 := H)).
    all: try (now apply Hweak, Hd with (1 := H)).
    all: try (now apply Hi with (1 := H)).
    + unfold get_channel_users in H.
      destruct (JsMap.get (channels st) (channelId p));
        simpl in H; rewrite Hch in H; now apply Hsame.
    + unfold ChannelScoped.webrtc_answer in H.
      destruct (JsMap.get (channels st) (channelId p)) as [x|];
        [destruct (ChannelScoped.find_target x (targetUserId p))|];
        simpl in H; rewrite Hch in H; now apply Hsame.
    + unfold ChannelScoped.webrtc_ice_candidate in H.
      destruct (truthy (targetUserId p));
        [destruct (JsMap.get (channels st) (channelId p)) as [x|];
         [destruct (ChannelScoped.find_target x (targetUserId p))|]|];
        simpl in H; rewrite Hch in H; now apply Hsame.
    + unfold ChannelScoped.request_webrtc_connection in H.
      destruct (JsMap.get (channels st) (channelId p)) as [x|];
        [destruct (ChannelScoped.find_target x (targetUserId p))|];
        simpl in H; rewrite Hch in H; now apply Hsame.
    + pose proof (f_equal (fun r => channels (fst r)) (sweep_empty_channels_idle st HI))
        as Hs.
      simpl in Hs. simpl in H. rewrite Hs in H.
      rewrite Hch in H. now apply Hsame.
  - intros st sid p now Habs. apply has_false_iff in Habs.
    rewrite join_channel_channels, get_set_eq, Habs. reflexivity.
Qed.

(** * Instances on small states *)

Lemma get_channel_users_lists_members_witness :
  snd (get_channel_users two_rooms "A" (msg "nowhere" VUndefined))
    = [EmitSelf "A" (ChannelUsers [])] /\
  get_channel_users two_rooms "A" (msg "room2" VUndefined)
    = (two_rooms, [EmitSelf "A" (ChannelUsers [VStr "userB"])]).
Proof.
  split.
  - exact (proj1 (proj2 (get_channel_users_lists_members two_rooms "A"
                           (msg "nowhere" VUndefined))) eq_refl).
  - exact (proj1 (get_channel_users_lists_members two_rooms "A" (msg "room2" VUndefined))).
Defined.

Lemma relays_count_messages_witness :
  message_count (fst (GlobalAddr.transmission_start two_rooms "A"
                        (msg "room1" (VStr "userA")) 9)) "room1"
    = message_count two_rooms "room1" + 1 /\
  message_count (fst (GlobalAddr.transmission_start two_rooms "A"
                        (msg "room1" (VStr "userA")) 9)) "room2"
    = message_count two_rooms "room2".
Proof.
  destruct (relays_count_messages two_rooms "A" (msg "room1" (VStr "userA")) 9) as [H _].
  destruct (H _ (or_introl eq_refl)) as (Hc & _).
  split; [exact (Hc "room1") | exact (Hc "room2")].
Defined.

Lemma reachable_current_channel_is_joined_witness :
  is_member two_rooms "room2" "B" = true.
Proof.
  exact (proj1 reachable_current_channel_is_joined
           [GlobalAddr.OnConnection "A" 1;
            GlobalAddr.OnConnection "B" 2;
            GlobalAddr.OnJoinChannel "A" (msg "room1" (VStr "userA")) 3;
            GlobalAddr.OnJoinChannel "B" (msg "room2" (VStr "userB")) 4]
           "B" (mkUser "B" 2 (Some "room2") (VStr "userB")) "room2" eq_refl eq_refl).
Defined.

Lemma reachable_channels_have_members_witness :
  1 <= member_count two_rooms "room1" /\ sweep_empty_channels two_rooms = (two_rooms, 0).
Proof.
  destruct (proj1 reachable_channels_have_members
              [GlobalAddr.OnConnection "A" 1;
               GlobalAddr.OnConnection "B" 2;
               GlobalAddr.OnJoinChannel "A" (msg "room1" (VStr "userA")) 3;
               GlobalAddr.OnJoinChannel "B" (msg "room2" (VStr "userB")) 4])
    as [Hm Hs].
  split; [exact (Hm "room1" eq_refl) | exact Hs].
Defined.

Lemma reachable_maps_are_maps_witness :
  WellKeyed joined_twice /\
  m_socketId (mkMember (VStr "userA") "A" 2) = "A".
Proof.
  destruct (proj1 reachable_maps_are_maps
              [GlobalAddr.OnConnection "A" 1;
               GlobalAddr.OnJoinChannel "A" (msg "room1" (VStr "userA")) 2;
               GlobalAddr.OnJoinChannel "A" (msg "room2" (VStr "userA")) 3])
    as [HW Hk].
  split; [exact HW|].
  apply (Hk "room1" "A"). simpl. now left.
Defined.

Lemma channels_listing_witness :
  map i_id (channelList_global two_rooms) = ["room1"; "room2"] /\
  NoDup (map i_id (channelList_global two_rooms)) /\
  1 <= i_userCount (mkChannelInfo "room1" 1 [(VStr "userA", "A", 3)]).
Proof.
  destruct (proj1 channels_listing
              [GlobalAddr.OnConnection "A" 1;
               GlobalAddr.OnConnection "B" 2;
               GlobalAddr.OnJoinChannel "A" (msg "room1" (VStr "userA")) 3;
               GlobalAddr.OnJoinChannel "B" (msg "room2" (VStr "userB")) 4])
    as (Hids & Hnd & _ & Hinfo).
  split; [exact Hids|]. split; [exact Hnd|].
  apply (Hinfo (mkChannelInfo "room1" 1 [(VStr "userA", "A", 3)])).
  simpl. now left.
Defined.

Lemma channel_metadata_is_stable_witness :
  let before := mkChannel "room1" [("A", mkMember (VStr "userA") "A" 3)] 3 0 in
  let after := mkChannel "room1" [("A", mkMember (VStr "userA") "A" 3)] 3 1 in
  c_id after = c_id before /\ c_createdAt after = c_createdAt before /\
  c_messageCount before <= c_messageCount after <= c_messageCount before + 1.
Proof.
  exact (proj1 channel_metadata_is_stable
           [GlobalAddr.OnConnection "A" 1;
            GlobalAddr.OnConnection "B" 2;
            GlobalAddr.OnJoinChannel "A" (msg "room1" (VStr "userA")) 3;
            GlobalAddr.OnJoinChannel "B" (msg "room2" (VStr "userB")) 4]
           (GlobalAddr.OnTransmissionStart "A" (msg "room1" (VStr "userA")) 9)
           "room1"
           (mkChannel "room1" [("A", mkMember (VStr "userA") "A" 3)] 3 0)
           (mkChannel "room1" [("A", mkMember (VStr "userA") "A" 3)] 3 1)
           eq_refl eq_refl).
Defined.
